(** * Shallow embedding of the streaming completion engine of shell_gpt

    Source: [sgpt/handlers/handler.py] ([get_provider_completion],
    [Handler.handle_function_call], [Handler.get_completion]) and the
    function-schema resolution of [sgpt/app.py] ([main]).

    The Python generator [get_completion] is modelled as a computation in a
    state/error monad over a [world]: every [yield] appends the fragment to
    [w_out] (the consumer drains the generator completely), the in-flight
    message list is one shared list ([w_messages]) that the code mutates in
    place, and the remote provider is a script of stream segments, one per
    provider call. *)

From Stdlib Require Import String List ZArith Ascii Bool Lia RelationClasses.
Import ListNotations.
Open Scope string_scope.
Set Warnings "-register-all".


(* ------------------------------------------------------------------ *)
(** ** Python values, dicts and helpers *)

Definition nl : string := String (ascii_of_nat 10) EmptyString.
Definition dq : string := String (ascii_of_nat 34) EmptyString.

(** A tool schema ([Dict[str, str]] in the source). *)
Definition schema := list (string * string).

(** The values stored in the keyword-argument dicts of the provider call. *)
Inductive pyval :=
| PStr (s : string)
| PInt (z : Z)
| PNone
| PBool (b : bool)
| PTools (fs : list schema).

(** A Python dict with string keys, in insertion order. *)
Definition dict := list (string * pyval).

Fixpoint dict_get (k : string) (d : dict) : option pyval :=
  match d with
  | [] => None
  | (k', v) :: d' => if String.eqb k k' then Some v else dict_get k d'
  end.

(** [d[k] = v]: overwrite in place, or append a new key at the end. *)
Fixpoint dict_set (k : string) (v : pyval) (d : dict) : dict :=
  match d with
  | [] => [(k, v)]
  | (k', v') :: d' =>
      if String.eqb k k' then (k', v) :: d' else (k', v') :: dict_set k v d'
  end.

(** [d.pop(k)] (the key is present in the source's use). *)
Fixpoint dict_pop (k : string) (d : dict) : dict :=
  match d with
  | [] => []
  | (k', v') :: d' => if String.eqb k k' then d' else (k', v') :: dict_pop k d'
  end.

(** The dict has none of the keys that enable tool calling. *)
Definition tool_free (d : dict) : bool :=
  match dict_get "tools" d, dict_get "tool_choice" d,
        dict_get "parallel_tool_calls" d with
  | None, None, None => true
  | _, _, _ => false
  end.

(** Python [x or default] on an optional string ([None] and [""] are falsy). *)
Definition py_or (x : option string) (default : string) : string :=
  match x with
  | Some s => if String.eqb s "" then default else s
  | None => default
  end.

(** Truthiness of an [Optional[List[...]]]. *)
Definition truthy {A} (l : option (list A)) : bool :=
  match l with
  | Some (_ :: _) => true
  | _ => false
  end.

(* ------------------------------------------------------------------ *)
(** ** Messages and stream chunks *)

(** The dict messages of the in-flight list. *)
Inductive message :=
| Msg (role content : string)
    (** [{"role": role, "content": content}] (system / user / assistant) *)
| AssistantToolCall (tool_call_id name arguments : string)
    (** [{"role": "assistant", "content": None, "tool_calls": [...]}] *)
| ToolResult (content tool_call_id : string).
    (** [{"role": "tool", "content": result, "tool_call_id": id}] *)

Definition msg_role (m : message) : string :=
  match m with
  | Msg r _ => r
  | AssistantToolCall _ _ _ => "assistant"
  | ToolResult _ _ => "tool"
  end.

(** One entry of [delta.tool_calls]: [tool_call.id],
    [tool_call.function.name], [tool_call.function.arguments]. *)
Record tool_call_delta := mk_delta {
  tc_id : option string;
  tc_name : option string;
  tc_arguments : option string
}.

(** [chunk.choices[i]]: its [delta.content], [delta.tool_calls] and
    [finish_reason]. *)
Record choice := mk_choice {
  ch_content : option string;
  ch_tool_calls : option (list tool_call_delta);
  ch_finish_reason : option string
}.

(** A stream chunk is the list [chunk.choices]. *)
Definition chunk := list choice.

(** What the next step of [for chunk in response] produces: a chunk, or a
    [KeyboardInterrupt] raised while waiting for it. *)
Inductive event :=
| Ev_chunk (c : chunk)
| Ev_interrupt.

(** The stream returned by one provider call; when the list ends the
    iteration ends. *)
Definition segment := list event.

(** The exceptions of the modelled code. *)
Inductive exn :=
| KeyboardInterrupt
| JSONDecodeError (doc : string)   (** [json.JSONDecodeError]; [.doc] is the input *)
| ValueError (s : string)          (** [int(s)] failed *)
| FunctionNotFound (name : string) (** [get_function(name)] failed *)
| ProviderError (msg : string).    (** the provider call failed *)

(** The provider capability held in the global [completion]. *)
Inductive capability :=
| Cap_litellm                    (** [litellm.completion] *)
| Cap_openai (client_kwargs : dict). (** [OpenAI(...).chat.completions.create] *)

(** A Python [float], passed through unchanged by the modelled code; it is
    represented by its IEEE-754 bit pattern. *)
Definition float := Z.

(** The arguments of one [completion_func(...)] invocation. *)
Record provider_call := mk_call {
  pc_cap : capability;
  pc_model : string;
  pc_temperature : float;
  pc_top_p : float;
  pc_messages : list message;
  pc_stream : bool;
  pc_kwargs : dict
}.

(* ------------------------------------------------------------------ *)
(** ** The world and the state/error monad *)

(** A cache fingerprint (the hex digest, read as a number). *)
Definition fingerprint_t := Z.

Record world := mk_world {
  w_completion : option capability;   (** global [completion] *)
  w_completion_kwargs : dict;         (** global [completion_kwargs] *)
  w_cfg_reads : list string;          (** keys read through [cfg.get] *)
  w_messages : list message;          (** the shared in-flight message list *)
  w_out : list string;                (** fragments yielded so far *)
  w_fn_log : list (string * list (string * string));
                                      (** functions invoked, with their arguments *)
  w_requests : list provider_call;    (** provider invocations, in order *)
  w_closed : list nat;                (** indices of responses closed *)
  w_cache_calls : list bool;          (** [caching] flag of each call of the
                                          decorated [get_completion] *)
  w_store : list (fingerprint_t * list string)  (** cache entries *)
}.

Inductive result (A : Type) :=
| Ok (a : A)
| Err (e : exn).
Arguments Ok {A} a.
Arguments Err {A} e.

Definition M (A : Type) := world -> result A * world.

Definition ret {A} (a : A) : M A := fun w => (Ok a, w).
Definition raise {A} (e : exn) : M A := fun w => (Err e, w).
Definition bind {A B} (m : M A) (k : A -> M B) : M B :=
  fun w => match m w with
           | (Ok a, w') => k a w'
           | (Err e, w') => (Err e, w')
           end.

Notation "x <- m ;; k" := (bind m (fun x => k))
  (at level 61, m at next level, right associativity).
Notation "m ;;; k" := (bind m (fun _ => k))
  (at level 61, right associativity).

(** [try: body except KeyboardInterrupt: handler] *)
Definition try_kbd {A} (body : M A) (handler : M A) : M A :=
  fun w => match body w with
           | (Err KeyboardInterrupt, w') => handler w'
           | r => r
           end.

Definition get : M world := fun w => (Ok w, w).

Definition with_world (f : world -> world) : M unit := fun w => (Ok tt, f w).

Definition set_messages (ms : list message) (w : world) : world :=
  mk_world w.(w_completion) w.(w_completion_kwargs) w.(w_cfg_reads) ms
    w.(w_out) w.(w_fn_log) w.(w_requests) w.(w_closed)
    w.(w_cache_calls) w.(w_store).

Definition set_out (o : list string) (w : world) : world :=
  mk_world w.(w_completion) w.(w_completion_kwargs) w.(w_cfg_reads)
    w.(w_messages) o w.(w_fn_log) w.(w_requests) w.(w_closed)
    w.(w_cache_calls) w.(w_store).

(** [yield s] *)
Definition yield (s : string) : M unit :=
  with_world (fun w => set_out (w.(w_out) ++ [s]) w).

(** [messages.append(m)] *)
Definition append_message (m : message) : M unit :=
  with_world (fun w => set_messages (w.(w_messages) ++ [m]) w).

(** [messages.append(m)] is above; these are the remaining effects. *)

Definition set_completion (c : capability) (kw : dict) : M unit :=
  with_world (fun w =>
    mk_world (Some c) kw w.(w_cfg_reads) w.(w_messages) w.(w_out)
      w.(w_fn_log) w.(w_requests) w.(w_closed) w.(w_cache_calls) w.(w_store)).

(** [cfg.get(key)], recording the read. *)
Definition read_cfg (cfg : string -> string) (key : string) : M string :=
  fun w => (Ok (cfg key),
            mk_world w.(w_completion) w.(w_completion_kwargs)
              (w.(w_cfg_reads) ++ [key]) w.(w_messages) w.(w_out)
              w.(w_fn_log) w.(w_requests) w.(w_closed)
              w.(w_cache_calls) w.(w_store)).

(** [completion_func(model=..., ..., messages=messages, stream=True, **kw)]:
    records the invocation and returns the index of its response. *)
Definition call_provider (cap : capability) (model : string)
    (temperature top_p : float) (kw : dict) : M nat :=
  fun w => (Ok (length w.(w_requests)),
            mk_world w.(w_completion) w.(w_completion_kwargs) w.(w_cfg_reads)
              w.(w_messages) w.(w_out) w.(w_fn_log)
              (w.(w_requests) ++
                 [mk_call cap model temperature top_p w.(w_messages) true kw])
              w.(w_closed) w.(w_cache_calls) w.(w_store)).

(** [response.close()] *)
Definition close_response (idx : nat) : M unit :=
  with_world (fun w =>
    mk_world w.(w_completion) w.(w_completion_kwargs) w.(w_cfg_reads)
      w.(w_messages) w.(w_out) w.(w_fn_log) w.(w_requests)
      (w.(w_closed) ++ [idx]) w.(w_cache_calls) w.(w_store)).

(** [f( ** dict_args)] for the function [name] of the registry. *)
Definition invoke_function (name : string) (f : list (string * string) -> string)
    (args : list (string * string)) : M string :=
  fun w => (Ok (f args),
            mk_world w.(w_completion) w.(w_completion_kwargs) w.(w_cfg_reads)
              w.(w_messages) w.(w_out) (w.(w_fn_log) ++ [(name, args)])
              w.(w_requests) w.(w_closed) w.(w_cache_calls) w.(w_store)).

Definition log_cache_call (caching : bool) : M unit :=
  with_world (fun w =>
    mk_world w.(w_completion) w.(w_completion_kwargs) w.(w_cfg_reads)
      w.(w_messages) w.(w_out) w.(w_fn_log) w.(w_requests) w.(w_closed)
      (w.(w_cache_calls) ++ [caching]) w.(w_store)).

Definition store_put (fp : fingerprint_t) (frags : list string) : M unit :=
  with_world (fun w =>
    mk_world w.(w_completion) w.(w_completion_kwargs) w.(w_cfg_reads)
      w.(w_messages) w.(w_out) w.(w_fn_log) w.(w_requests) w.(w_closed)
      w.(w_cache_calls) ((fp, frags) :: w.(w_store))).

Fixpoint store_lookup (fp : fingerprint_t) (st : list (fingerprint_t * list string))
    : option (list string) :=
  match st with
  | [] => None
  | (fp', frags) :: st' => if Z.eqb fp fp' then Some frags else store_lookup fp st'
  end.

Fixpoint yield_all (frags : list string) : M unit :=
  match frags with
  | [] => ret tt
  | f :: fs => yield f;;; yield_all fs
  end.

(* ------------------------------------------------------------------ *)
(** ** The request fingerprint (the cache module is not in the sources) *)

(** The JSON-like values the fingerprint is computed from. *)
Inductive jval :=
| JNull
| JStr (s : string)
| JNum (z : Z)
| JBool (b : bool)
| JList (l : list jval)
| JObj (kvs : list (string * jval)).

(** A message as the dict the code builds. *)
Definition message_json (m : message) : jval :=
  match m with
  | Msg r c => JObj [("role", JStr r); ("content", JStr c)]
  | AssistantToolCall i n a =>
      JObj [("role", JStr "assistant"); ("content", JNull);
            ("tool_calls",
              JList [JObj [("id", JStr i); ("type", JStr "function");
                           ("function", JObj [("name", JStr n);
                                              ("arguments", JStr a)])]])]
  | ToolResult c i =>
      JObj [("role", JStr "tool"); ("content", JStr c); ("tool_call_id", JStr i)]
  end.

(** Modelled from the spec: the fingerprint input of the missing cache module,
    "the ordered list of (model, temperature, top_p, message list, whether
    tool schemas were supplied)". *)
Definition fingerprint_key (model : string) (temperature top_p : float)
    (messages : list message) (has_tools : bool) : jval :=
  JList [JStr model; JNum temperature; JNum top_p;
         JList (map message_json messages); JBool has_tools].

(* ------------------------------------------------------------------ *)
(** ** The engine *)

Section Engine.

(** [cfg.get] of the configuration module. *)
Variable cfg : string -> string.
(** [use_litellm = cfg.get("USE_LITELLM") == "true"], fixed at import. *)
Variable use_litellm : bool.
(** [int(s)]; [None] when it raises [ValueError]. *)
Variable py_int : string -> option Z.
(** [OpenAI(...)]: [Some e] when the client constructor raises [e]. *)
Variable openai_init_error : dict -> option exn.
(** [json.loads] applied to the accumulated arguments, read as the items of
    the resulting dict; [None] when it raises [JSONDecodeError]. *)
Variable json_loads : string -> option (list (string * string)).
(** The function registry [sgpt.function.get_function]. *)
Variable get_function : string -> option (list (string * string) -> string).
(** [DefaultRoles.SHELL.value], [DefaultRoles.CODE.value],
    [DefaultRoles.DESCRIBE_SHELL.value]. *)
Variables SHELL CODE DESCRIBE_SHELL : string.
(** The digest of the cache module, applied to the fingerprint key. *)
Variable digest : jval -> fingerprint_t.

Definition cfg_get := read_cfg cfg.

(** [get_provider_completion()] *)
Definition get_provider_completion : M (capability * dict) :=
  w <- get;;
  match w.(w_completion) with
  | Some c => ret (c, w.(w_completion_kwargs))
  | None =>
      base_url <- cfg_get "API_BASE_URL";;
      t <- cfg_get "REQUEST_TIMEOUT";;
      match py_int t with
      | None => raise (ValueError t)
      | Some timeout =>
          api_key <- cfg_get "OPENAI_API_KEY";;
          let provider_kwargs :=
            [("timeout", PInt timeout); ("api_key", PStr api_key);
             ("base_url", if String.eqb base_url "default" then PNone
                          else PStr base_url)] in
          if use_litellm then
            set_completion Cap_litellm (dict_pop "api_key" provider_kwargs);;;
            ret (Cap_litellm, dict_pop "api_key" provider_kwargs)
          else
            match openai_init_error provider_kwargs with
            | Some e => raise e
            | None =>
                set_completion (Cap_openai provider_kwargs) [];;;
                ret (Cap_openai provider_kwargs, [])
            end
      end
  end.

(** [", ".join(f'{k}="{v}"' for k, v in dict_args.items())] *)
Definition join_args (dict_args : list (string * string)) : string :=
  String.concat ", " (map (fun '(k, v) => k ++ "=" ++ dq ++ v ++ dq) dict_args).

(** The trace line [f"> @FunctionCall `{name}({joined_args})` \n\n"]. *)
Definition function_call_line (name : string) (dict_args : list (string * string))
    : string :=
  "> @FunctionCall `" ++ name ++ "(" ++ join_args dict_args ++ ")` " ++ nl ++ nl.

(** [f"```text\n{result}\n```\n"] *)
Definition function_output_block (result : string) : string :=
  "```text" ++ nl ++ result ++ nl ++ "```" ++ nl.

(** [Handler.handle_function_call] *)
Definition handle_function_call (tool_call_id name arguments : string) : M unit :=
  append_message (AssistantToolCall tool_call_id name arguments);;;
  w <- get;;
  (match last w.(w_messages) (Msg "" "") , w.(w_messages) with
   | _, [] => ret tt
   | m, _ :: _ => if String.eqb (msg_role m) "assistant" then yield nl else ret tt
   end);;;
  match json_loads arguments with
  | None => raise (JSONDecodeError arguments)
  | Some dict_args =>
      yield (function_call_line name dict_args);;;
      match get_function name with
      | None => raise (FunctionNotFound name)
      | Some f =>
          result <- invoke_function name f dict_args;;
          show <- cfg_get "SHOW_FUNCTIONS_OUTPUT";;
          (if String.eqb show "true" then yield (function_output_block result)
           else ret tt);;;
          append_message (ToolResult result tool_call_id)
      end
  end.

(** The tool-call accumulator [(tool_call_id, name, arguments)]. *)
Definition tool_acc := (string * string * string)%type.

(** One [tool_call] of [delta.tool_calls]:
    [tool_call_id = tool_call.id or tool_call_id],
    [name = tool_call.function.name or name],
    [arguments += tool_call.function.arguments or ""]. *)
Definition accumulate_one (a : tool_acc) (tc : tool_call_delta) : tool_acc :=
  let '(i, n, args) := a in
  (py_or tc.(tc_id) i, py_or tc.(tc_name) n, args ++ py_or tc.(tc_arguments) "").

(** [if tool_calls: for tool_call in tool_calls: ...] *)
Definition accumulate (a : tool_acc) (tcs : option (list tool_call_delta)) : tool_acc :=
  match tcs with
  | Some l => fold_left accumulate_one l a
  | None => a
  end.

Definition is_tool_calls_finish (c : choice) : bool :=
  match c.(ch_finish_reason) with
  | Some r => String.eqb r "tool_calls"
  | None => false
  end.

(** The body of [for chunk in response: ...].  [recur] is the recursive
    [self.get_completion(..., caching=False)] and [rest] the provider
    responses left after this one. *)
Fixpoint drain (recur : M (list segment)) (rest : list segment) (evs : segment)
    (a : tool_acc) : M (list segment) :=
  match evs with
  | [] => ret rest
  | Ev_interrupt :: _ => raise KeyboardInterrupt
  | Ev_chunk [] :: evs' => drain recur rest evs' a            (* continue *)
  | Ev_chunk (c :: _) :: evs' =>
      let a' := accumulate a c.(ch_tool_calls) in
      if is_tool_calls_finish c then
        let '(i, n, args) := a' in
        handle_function_call i n args;;;
        recur                                                  (* then return *)
      else
        yield (py_or c.(ch_content) "");;;
        drain recur rest evs' a'
  end.

(** [is_shell_role or is_code_role or is_dsc_shell_role] *)
Definition is_reserved_role (role_name : string) : bool :=
  String.eqb role_name SHELL || String.eqb role_name CODE
  || String.eqb role_name DESCRIBE_SHELL.

(** [if ...: functions = None] *)
Definition resolve_functions (role_name : string) (functions : option (list schema))
    : option (list schema) :=
  if is_reserved_role role_name then None else functions.

(** [request_kwargs = dict(provider_kwargs); if functions: ...] *)
Definition build_request_kwargs (provider_kwargs : dict)
    (functions : option (list schema)) : dict :=
  match functions with
  | Some (f :: fs) =>
      dict_set "parallel_tool_calls" (PBool false)
        (dict_set "tools" (PTools (f :: fs))
           (dict_set "tool_choice" (PStr "auto") provider_kwargs))
  | _ => provider_kwargs
  end.

(** Modelled from the spec: the [@cache] decorator of the missing cache
    module ("get_or_compute").  With [caching] false the producer runs
    unrecorded; otherwise a stored entry for the fingerprint is replayed
    without running the producer, and on a miss the fragments the producer
    yields are stored once it returns.  The size bound (LRU eviction) is not
    modelled. *)
Definition cache_wrap (caching : bool) (fp : fingerprint_t) (script : list segment)
    (producer : M (list segment)) : M (list segment) :=
  log_cache_call caching;;;
  if caching then
    w0 <- get;;
    match store_lookup fp w0.(w_store) with
    | Some frags => yield_all frags;;; ret script
    | None =>
        rest <- producer;;
        w1 <- get;;
        store_put fp (skipn (length w0.(w_out)) w1.(w_out));;;
        ret rest
    end
  else producer.

(** The fingerprint of a call, taken when the call starts. *)
Definition request_fingerprint (model : string) (temperature top_p : float)
    (messages : list message) (functions : option (list schema)) : fingerprint_t :=
  digest (fingerprint_key model temperature top_p messages (truthy functions)).

(** The body of [Handler.get_completion]: from the role override to the end
    of the [try] block.  [recur rest] is the recursive
    [self.get_completion(..., functions=functions, caching=False)] issued when
    the provider responses left are [rest]. *)
Definition completion_body (recur : list segment -> M (list segment))
    (role_name : string) (script : list segment) (model : string)
    (temperature top_p : float) (functions : option (list schema))
    : M (list segment) :=
  let functions' := resolve_functions role_name functions in
  p <- get_provider_completion;;
  let '(cap, provider_kwargs) := p in
  idx <- call_provider cap model temperature top_p
           (build_request_kwargs provider_kwargs functions');;
  match script with
  | [] => raise (ProviderError "no response")
  | seg :: rest =>
      try_kbd (drain (recur rest) rest seg ("", "", ""))
              (close_response idx;;; ret rest)
  end.

(** [Handler.get_completion] behind its [@cache] decorator, for the handler's
    role [role_name]; [script] holds the provider responses still to come and
    the result is what is left of it. *)
Fixpoint get_completion (role_name : string) (script : list segment)
    (caching : bool) (model : string) (temperature top_p : float)
    (functions : option (list schema)) : M (list segment) :=
  w <- get;;
  cache_wrap caching
    (request_fingerprint model temperature top_p w.(w_messages) functions) script
    (completion_body
       (fun rest => get_completion role_name rest false model temperature top_p
                      (resolve_functions role_name functions))
       role_name script model temperature top_p functions).

End Engine.

(* ------------------------------------------------------------------ *)
(** ** Summaries of streams and runs, used in the statements *)

(** The fragment [yield delta.content or ""] emits for a chunk that does not
    finish with [tool_calls] (none for a chunk without choices). *)
Definition chunk_fragment (c : chunk) : list string :=
  match c with
  | [] => []
  | ch :: _ => [py_or (ch_content ch) ""]
  end.

Definition chunk_fragments (cs : list chunk) : list string :=
  flat_map chunk_fragment cs.

(** No chunk finishes with [finish_reason == "tool_calls"]. *)
Definition no_tool_finish (cs : list chunk) : bool :=
  forallb (fun c => match c with
                    | [] => true
                    | ch :: _ => negb (is_tool_calls_finish ch)
                    end) cs.

(** The tool-call accumulator after the chunks [cs]. *)
Definition acc_chunk (a : tool_acc) (c : chunk) : tool_acc :=
  match c with
  | [] => a
  | ch :: _ => accumulate a (ch_tool_calls ch)
  end.

Definition acc_chunks (a : tool_acc) (cs : list chunk) : tool_acc :=
  fold_left acc_chunk cs a.

(** The tool-call deltas of a sequence of chunks, in arrival order. *)
Definition chunk_deltas (cs : list chunk) : list tool_call_delta :=
  flat_map (fun c => match c with
                     | [] => []
                     | ch :: _ => match ch_tool_calls ch with
                                  | Some l => l
                                  | None => []
                                  end
                     end) cs.

(** The non-empty values of a list of optional strings. *)
Fixpoint nonempty_values (xs : list (option string)) : list string :=
  match xs with
  | [] => []
  | Some s :: xs' => if String.eqb s "" then nonempty_values xs' else s :: nonempty_values xs'
  | None :: xs' => nonempty_values xs'
  end.

(** "Last non-empty wins" (the empty string when there is none). *)
Definition last_nonempty (xs : list (option string)) : string :=
  last (nonempty_values xs) "".

(** Concatenation of the argument fragments in arrival order. *)
Definition concat_arguments (ds : list tool_call_delta) : string :=
  String.concat "" (map (fun d => py_or (tc_arguments d) "") ds).

(** The spec's per-id accumulation (a delta without an id belongs to the
    last id seen): the concatenated argument fragments of the id [i]. *)
Fixpoint arguments_of_id (i : string) (cur : string) (ds : list tool_call_delta)
    : string :=
  match ds with
  | [] => ""
  | d :: ds' =>
      let cur' := py_or (tc_id d) cur in
      (if String.eqb cur' i then py_or (tc_arguments d) "" else "")
        ++ arguments_of_id i cur' ds'
  end.

(** The number of tool-role messages of a message list. *)
Definition count_tool_messages (ms : list message) : nat :=
  length (filter (fun m => String.eqb (msg_role m) "tool") ms).

(** The fragments yielded by a run from [w] to [w']. *)
Definition new_output (w w' : world) : list string :=
  skipn (length (w_out w)) (w_out w').

(** The memoized provider capability is kept: once [completion] is set,
    later worlds hold the same capability and the same kwargs. *)
Definition memo_kept (w w' : world) : Prop :=
  forall c, w_completion w = Some c ->
    w_completion w' = Some c /\ w_completion_kwargs w' = w_completion_kwargs w.

(** The world once an uncached call with a memoized capability has logged
    its flag and sent its request. *)
Definition live_world (cap : capability) (model : string) (t p : float)
    (kw : dict) (w : world) : world :=
  mk_world (w_completion w) (w_completion_kwargs w) (w_cfg_reads w)
    (w_messages w) (w_out w) (w_fn_log w)
    (w_requests w ++ [mk_call cap model t p (w_messages w) true kw])
    (w_closed w) (w_cache_calls w ++ [false]) (w_store w).

(** Relations between the start and end worlds of runs. *)

Definition calls_false (w w' : world) : Prop :=
  exists k, w_cache_calls w' = (w_cache_calls w ++ repeat false k)%list.

Definition req_prefix (w w' : world) : Prop :=
  exists l, w_requests w' = (w_requests w ++ l)%list.

Definition no_tools_sent (w w' : world) : Prop :=
  tool_free (w_completion_kwargs w) = true ->
  tool_free (w_completion_kwargs w') = true /\
  exists l, w_requests w' = (w_requests w ++ l)%list /\
            Forall (fun ca => tool_free (pc_kwargs ca) = true) l.

(* ------------------------------------------------------------------ *)
(** ** A concrete configuration, registry and provider script *)

Module Demo.

(** [cfg.get] of a default configuration. *)
Definition cfg0 (key : string) : string :=
  if String.eqb key "REQUEST_TIMEOUT" then "60"
  else if String.eqb key "SHOW_FUNCTIONS_OUTPUT" then "false"
  else "default".

Definition py_int0 (s : string) : option Z :=
  if String.eqb s "60" then Some 60%Z else None.

Definition openai0 (_ : dict) : option exn := None.

(** [json.loads] on the inputs used below: only ["{}"] parses. *)
Definition json0 (s : string) : option (list (string * string)) :=
  if String.eqb s "{}" then Some [] else None.

(** A registry with one function [f] that returns ["42"]. *)
Definition getf0 (name : string) : option (list (string * string) -> string) :=
  if String.eqb name "f" then Some (fun _ => "42") else None.

Definition digest0 (_ : jval) : fingerprint_t := 0%Z.

Definition cap0 : capability :=
  Cap_openai [("timeout", PInt 60); ("api_key", PStr "default"); ("base_url", PNone)].

(** A fresh process, and one whose capability is already memoized. *)
Definition w_fresh : world := mk_world None [] [] [Msg "user" "hi"] [] [] [] [] [] [].
Definition w_memo : world :=
  mk_world (Some cap0) [] [] [Msg "user" "hi"] [] [] [] [] [] [].

Definition tools0 : option (list schema) := Some [[("name", "f")]].

(** The engine under this configuration, with the built-in roles named
    ["S"], ["C"] and ["D"]. *)
Definition gpc0 := get_provider_completion cfg0 false py_int0 openai0.
Definition drain0 := drain cfg0 json0 getf0.
Definition gc0 :=
  get_completion cfg0 false py_int0 openai0 json0 getf0 "S" "C" "D" digest0.

(** First response: some text, then a call of [f] with arguments ["{}"]
    sent in two fragments, finishing with [tool_calls]. *)
Definition pre1 : list chunk :=
  [[mk_choice (Some "Hi") None None];
   [mk_choice None (Some [mk_delta (Some "c1") (Some "f") (Some "{")]) None]].
Definition fin1 : choice :=
  mk_choice None (Some [mk_delta None None (Some "}")]) (Some "tool_calls").
Definition seg1 : segment := (map Ev_chunk pre1 ++ Ev_chunk [fin1] :: [])%list.

(** Second response: text, finishing with [stop]. *)
Definition chunks2 : list chunk := [[mk_choice (Some "Done") None (Some "stop")]].
Definition seg2 : segment := map Ev_chunk chunks2.

(** A response whose deltas carry two tool-call ids, ["a"] then ["b"],
    each with the arguments ["{}"]. *)
Definition pre_ids : list chunk :=
  [[mk_choice None (Some [mk_delta (Some "a") (Some "f") (Some "{}")]) None]].
Definition fin_ids : choice :=
  mk_choice None (Some [mk_delta (Some "b") (Some "f") (Some "{}")]) (Some "tool_calls").
Definition seg_ids : segment := (map Ev_chunk pre_ids ++ Ev_chunk [fin_ids] :: [])%list.
Definition ids_deltas : list tool_call_delta := chunk_deltas (pre_ids ++ [[fin_ids]])%list.

(** A response interrupted after the chunks [pre1]. *)
Definition seg_int : segment := (map Ev_chunk pre1 ++ Ev_interrupt :: [])%list.

End Demo.

(* ------------------------------------------------------------------ *)
(** ** Command-line helpers: [sgpt/utils.py] and [main] of [sgpt/app.py] *)

(** Python [str] operations, on strings whose code points are below 256
    (one [ascii] per code point). *)

(** [c.isspace()] for code points below 256. *)
Definition py_isspace (c : ascii) : bool :=
  let n := nat_of_ascii c in
  (Nat.leb 9 n && Nat.leb n 13) || (Nat.leb 28 n && Nat.leb n 32)
  || Nat.eqb n 133 || Nat.eqb n 160.

Fixpoint py_lstrip (s : string) : string :=
  match s with
  | EmptyString => EmptyString
  | String c s' => if py_isspace c then py_lstrip s' else s
  end.

Definition string_rev (s : string) : string :=
  string_of_list_ascii (rev (list_ascii_of_string s)).

(** [s.strip()]: leading whitespace, then trailing whitespace (the leading
    whitespace of the reversed string). *)
Definition py_strip (s : string) : string :=
  string_rev (py_lstrip (string_rev (py_lstrip s))).

(** [needle in hay] *)
Definition py_contains (needle hay : string) : bool :=
  match String.index 0 needle hay with
  | Some _ => true
  | None => false
  end.

(** [s.split(sep)] for a one-character separator. *)
Fixpoint py_split (sep : ascii) (s : string) : list string :=
  match s with
  | EmptyString => [EmptyString]
  | String c s' =>
      if Ascii.eqb c sep then EmptyString :: py_split sep s'
      else match py_split sep s' with
           | [] => [String c EmptyString]
           | w :: ws => String c w :: ws
           end
  end.

(** [s.replace(old, new)] for a one-character [old]. *)
Fixpoint py_replace_char (old : ascii) (new s : string) : string :=
  match s with
  | EmptyString => EmptyString
  | String c s' =>
      if Ascii.eqb c old then new ++ py_replace_char old new s'
      else String c (py_replace_char old new s')
  end.

(** Whether a string holds a NUL character. *)
Definition has_nul (s : string) : bool :=
  existsb (fun c => Ascii.eqb c (ascii_of_nat 0)) (list_ascii_of_string s).

(** [os.environ.get(k, default)] *)
Definition env_get (environ : string -> option string) (k default : string) : string :=
  match environ k with
  | Some v => v
  | None => default
  end.

Definition sq : string := String (ascii_of_nat 39) EmptyString.

(** The characters [shlex.quote] leaves unquoted: [[\w@%+=:,./-]] under
    [re.ASCII]. *)
Definition shlex_safe (c : ascii) : bool :=
  let n := nat_of_ascii c in
  (Nat.leb 48 n && Nat.leb n 57) || (Nat.leb 65 n && Nat.leb n 90)
  || (Nat.leb 97 n && Nat.leb n 122)
  || existsb (Ascii.eqb c) (list_ascii_of_string "_@%+=:,./-").

(** [shlex.quote(s)] of the Python standard library:
    [if not s: return "''"];
    [if _find_unsafe(s) is None: return s];
    [return "'" + s.replace("'", "'\"'\"'") + "'"]. *)
Definition shlex_quote (s : string) : string :=
  match s with
  | EmptyString => sq ++ sq
  | _ =>
      if forallb shlex_safe (list_ascii_of_string s) then s
      else sq ++ py_replace_char (ascii_of_nat 39) (sq ++ dq ++ sq ++ dq ++ sq) s ++ sq
  end.

(** How a POSIX shell splits a command line into the words of a simple
    command (token recognition and quote removal, XCU 2.2, 2.3 and 2.6.7),
    for lines that need no expansion: ['...'] is literal, ["..."] is literal
    when it holds no [$], backquote or backslash, blanks outside quotes
    separate words.  [None] for every line outside that fragment: an
    unquoted operator, expansion, glob, comment or escape character, or an
    unterminated quote. *)
Inductive sh_state := Sh_unquoted | Sh_single | Sh_double.

Definition sh_blank (c : ascii) : bool :=
  Ascii.eqb c (ascii_of_nat 32) || Ascii.eqb c (ascii_of_nat 9).

Definition sh_special (c : ascii) : bool :=
  existsb (Ascii.eqb c) (list_ascii_of_string "|&;<>()$`*?[#~{}!\")
  || Ascii.eqb c (ascii_of_nat 10).

Fixpoint sh_lex (st : sh_state) (inword : bool) (cur s : string)
    : option (list string) :=
  match s with
  | EmptyString =>
      match st with
      | Sh_unquoted => Some (if inword then [cur] else [])
      | _ => None
      end
  | String c s' =>
      match st with
      | Sh_unquoted =>
          if Ascii.eqb c (ascii_of_nat 39) then sh_lex Sh_single true cur s'
          else if Ascii.eqb c (ascii_of_nat 34) then sh_lex Sh_double true cur s'
          else if sh_blank c then
            if inword then option_map (cons cur) (sh_lex Sh_unquoted false EmptyString s')
            else sh_lex Sh_unquoted false EmptyString s'
          else if sh_special c then None
          else sh_lex Sh_unquoted true (cur ++ String c EmptyString) s'
      | Sh_single =>
          if Ascii.eqb c (ascii_of_nat 39) then sh_lex Sh_unquoted true cur s'
          else sh_lex Sh_single true (cur ++ String c EmptyString) s'
      | Sh_double =>
          if Ascii.eqb c (ascii_of_nat 34) then sh_lex Sh_unquoted true cur s'
          else if existsb (Ascii.eqb c) (list_ascii_of_string "$`\") then None
          else sh_lex Sh_double true (cur ++ String c EmptyString) s'
      end
  end.

Definition sh_words (line : string) : option (list string) :=
  sh_lex Sh_unquoted false EmptyString line.

(** *** The process around the CLI *)

(** The file system: path to contents, the first binding of a path wins. *)
Definition files := list (string * string).

Definition fs_lookup (p : string) (fs : files) : option string :=
  match find (fun e => String.eqb (fst e) p) fs with
  | Some (_, v) => Some v
  | None => None
  end.

Definition fs_remove (p : string) (fs : files) : files :=
  filter (fun e => negb (String.eqb (fst e) p)) fs.

Definition fs_write (p v : string) (fs : files) : files :=
  (p, v) :: fs_remove p fs.

(** What [subprocess.run(args)] found: the process exited with status 0, the
    executable was missing ([FileNotFoundError] with its [filename]), or it
    exited with a non-zero status. *)
Inductive run_outcome :=
| Run_ok
| Run_not_found (filename : option string)
| Run_failed (returncode : Z).

(** The exceptions raised by the CLI code. *)
Inductive cli_exn :=
| UsageError (msg : string)             (** [click.UsageError] *)
| BadParameter (msg : string)           (** [click.BadParameter] *)
| TyperExit                             (** [typer.Exit()] *)
| FileNotFoundError (filename : option string)
| CalledProcessError (cmd : list string)
| Abort                                 (** [click.Abort]: end of input at a prompt *)
| EOFError
| CliValueError (msg : string)          (** [ValueError] *)
| Raised (what : string).               (** any exception of code not modelled here *)

(** The handler [main] instantiates, with the constructor arguments. *)
Inductive handler_kind :=
| H_default
| H_chat (chat_id : string)
| H_repl (repl_id : string).

(** A call [Handler(..., role_class, markdown).handle(prompt, model=...,
    temperature=..., top_p=..., caching=..., functions=...)]. *)
Record handler_call := mk_handler_call {
  hc_handler : handler_kind;
  hc_role : string;               (** [role_class.name] *)
  hc_markdown : bool;
  hc_prompt : string;
  hc_model : option string;
  hc_temperature : float;
  hc_top_p : float;
  hc_caching : bool;
  hc_functions : option (list schema) }.

Inductive action :=
| Act_show_messages (chat_id : string) (markdown : bool)
| Act_handle (hc : handler_call)
| Act_invalid_choice (value : string).   (** click reports the value and prompts again *)

Record sys := mk_sys {
  s_echo : list string;          (** [typer.echo] lines *)
  s_runs : list (list string);   (** [subprocess.run] argument lists *)
  s_system : list string;        (** [os.system] command lines *)
  s_files : files;
  s_actions : list action }.

Inductive cres (A : Type) :=
| COk (a : A)
| CErr (e : cli_exn).
Arguments COk {A} a.
Arguments CErr {A} e.

Definition CM (A : Type) := sys -> cres A * sys.

Definition cret {A} (a : A) : CM A := fun st => (COk a, st).
Definition craise {A} (e : cli_exn) : CM A := fun st => (CErr e, st).
Definition cbind {A B} (m : CM A) (k : A -> CM B) : CM B :=
  fun st => match m st with
            | (COk a, st') => k a st'
            | (CErr e, st') => (CErr e, st')
            end.

(** An outcome computed outside the modelled code. *)
Definition clift {A} (x : cres A) : CM A := fun st => (x, st).

Notation "x <-- m ;; k" := (cbind m (fun x => k))
  (at level 61, m at next level, right associativity).
Notation "m ;;> k" := (cbind m (fun _ => k))
  (at level 61, right associativity).

(** [try: m except ...: h(err)] *)
Definition ccatch {A} (m : CM A) (h : cli_exn -> CM A) : CM A :=
  fun st => match m st with
            | (CErr e, st') => h e st'
            | r => r
            end.

Definition echo (s : string) : CM unit :=
  fun st => (COk tt, mk_sys (s_echo st ++ [s]) (s_runs st) (s_system st)
                             (s_files st) (s_actions st)).

Definition log_action (a : action) : CM unit :=
  fun st => (COk tt, mk_sys (s_echo st) (s_runs st) (s_system st)
                             (s_files st) (s_actions st ++ [a])).

Definition set_files (fs : files) : CM unit :=
  fun st => (COk tt, mk_sys (s_echo st) (s_runs st) (s_system st) fs (s_actions st)).

Definition get_files : CM files := fun st => (COk (s_files st), st).

(** [open(p, "r").read()] *)
Definition read_file (p : string) : CM string :=
  fs <-- get_files ;;
  match fs_lookup p fs with
  | Some v => cret v
  | None => craise (FileNotFoundError (Some p))
  end.

(** [open(p, "a").write(text)] *)
Definition append_file (p text : string) : CM unit :=
  fs <-- get_files ;;
  set_files (fs_write p (match fs_lookup p fs with Some v => v | None => EmptyString end
                         ++ text) fs).

(** [os.remove(p)] *)
Definition os_remove (p : string) : CM unit :=
  fs <-- get_files ;;
  match fs_lookup p fs with
  | Some _ => set_files (fs_remove p fs)
  | None => craise (FileNotFoundError (Some p))
  end.

Section Cli.

Variable platform_system : string.                 (** [platform.system()] *)
Variable environ : string -> option string.        (** [os.environ] *)
Variable home : string.                            (** [os.path.expanduser("~")] *)
Variable system_effect : string -> files -> files. (** what a command line run by
                                                       [os.system] does to the files *)
Variable subprocess_outcome : list string -> run_outcome.
Variable tmp_path : string.                        (** the [NamedTemporaryFile] name *)
Variable SHELL_GPT_CONFIG_FOLDER : string.         (** [str(SHELL_GPT_CONFIG_FOLDER)] *)
Variable config_folder_exists : bool.
Variable zsh_integration bash_integration : string.

(** [os.system(cmd)]; the exit status is not used by the callers.  The
    command line is encoded for the C [system] call first, which raises
    [ValueError("embedded null byte")] when it holds a NUL character. *)
Definition os_system (cmd : string) : CM unit :=
  fun st =>
    if has_nul cmd then (CErr (CliValueError "embedded null byte"), st)
    else (COk tt, mk_sys (s_echo st) (s_runs st) (s_system st ++ [cmd])
                         (system_effect cmd (s_files st)) (s_actions st)).

(** [subprocess.run(args, check=True)] *)
Definition subprocess_run (args : list string) : CM unit :=
  fun st =>
    let st' := mk_sys (s_echo st) (s_runs st ++ [args]) (s_system st)
                      (s_files st) (s_actions st) in
    match subprocess_outcome args with
    | Run_ok => (COk tt, st')
    | Run_not_found f => (CErr (FileNotFoundError f), st')
    | Run_failed _ => (CErr (CalledProcessError args), st')
    end.

(** [get_edited_prompt] *)
Definition get_edited_prompt : CM string :=
  fs <-- get_files ;;
  set_files (fs_write tmp_path EmptyString fs) ;;>
  let editor := env_get environ "EDITOR" "vim" in
  os_system (editor ++ " " ++ tmp_path) ;;>
  output <-- read_file tmp_path ;;
  os_remove tmp_path ;;>
  if String.eqb output EmptyString
  then craise (BadParameter "Couldn't get valid PROMPT from $EDITOR")
  else cret output.

(** [full_command] of [run_command] *)
Definition full_command (command : string) : string :=
  if String.eqb platform_system "Windows" then
    let is_powershell :=
      Nat.leb 3 (length (py_split ";" (env_get environ "PSModulePath" EmptyString))) in
    if is_powershell then "powershell.exe -Command " ++ dq ++ command ++ dq
    else "cmd.exe /c " ++ dq ++ command ++ dq
  else
    let shell := env_get environ "SHELL" "/bin/sh" in
    shell ++ " -c " ++ shlex_quote command.

(** [run_command] *)
Definition run_command (command : string) : CM unit :=
  os_system (full_command command).

Definition REMOTE_BOOTSTRAP_COMMAND : string :=
  "set -eu; " ++
  "mkdir -p " ++ dq ++ "$HOME/.config" ++ dq ++ " " ++ dq ++ "$HOME/.local/bin" ++ dq ++ "; " ++
  "if ! command -v uv >/dev/null 2>&1 && [ ! -x " ++ dq ++ "$HOME/.local/bin/uv" ++ dq
    ++ " ]; then " ++
  "if command -v curl >/dev/null 2>&1; then " ++
  "curl -LsSf https://astral.sh/uv/install.sh | sh; " ++
  "elif command -v wget >/dev/null 2>&1; then " ++
  "wget -qO- https://astral.sh/uv/install.sh | sh; " ++
  "else echo 'missing curl or wget for uv install' >&2; exit 1; " ++
  "fi; " ++
  "fi; " ++
  "UV_BIN=" ++ dq ++ "$(command -v uv || true)" ++ dq ++ "; " ++
  "if [ -z " ++ dq ++ "$UV_BIN" ++ dq ++ " ] && [ -x " ++ dq ++ "$HOME/.local/bin/uv" ++ dq
    ++ " ]; then " ++
  "UV_BIN=" ++ dq ++ "$HOME/.local/bin/uv" ++ dq ++ "; " ++
  "fi; " ++
  "if [ -z " ++ dq ++ "$UV_BIN" ++ dq ++ " ]; then " ++
  "echo 'uv installation failed' >&2; exit 1; " ++
  "fi; " ++
  dq ++ "$UV_BIN" ++ dq ++ " tool install --force shell-gpt".

Definition REMOTE_VERIFY_COMMAND : string :=
  "set -eu; " ++
  "if [ -d " ++ dq ++ "$HOME/.config/shell_gpt" ++ dq ++ " ]; then " ++
  "chmod -R go-rwx " ++ dq ++ "$HOME/.config/shell_gpt" ++ dq ++ " 2>/dev/null || true; " ++
  "fi; " ++
  "if [ -x " ++ dq ++ "$HOME/.local/bin/sgpt" ++ dq ++ " ]; then " ++
  dq ++ "$HOME/.local/bin/sgpt" ++ dq ++ " --version; " ++
  "elif command -v sgpt >/dev/null 2>&1; then " ++
  "sgpt --version; " ++
  "else " ++
  "echo 'shell-gpt installed but sgpt is not in PATH, use $HOME/.local/bin/sgpt' >&2; " ++
  "exit 1; " ++
  "fi".

(** The [try] block of [replicate_to_host]. *)
Definition replicate_steps (normalized_target : string) : CM unit :=
  echo ("Bootstrapping ShellGPT on " ++ normalized_target ++ "...") ;;>
  subprocess_run ["ssh"; normalized_target; "sh"; "-lc"; REMOTE_BOOTSTRAP_COMMAND] ;;>
  echo ("Copying local config from " ++ SHELL_GPT_CONFIG_FOLDER ++ " to remote host...") ;;>
  subprocess_run ["scp"; "-r"; SHELL_GPT_CONFIG_FOLDER; normalized_target ++ ":~/.config/"] ;;>
  echo "Verifying remote installation..." ;;>
  subprocess_run ["ssh"; normalized_target; "sh"; "-lc"; REMOTE_VERIFY_COMMAND].

(** [replicate_to_host] *)
Definition replicate_to_host (target : string) : CM unit :=
  if String.eqb platform_system "Windows" then
    craise (UsageError "`--replicate` is only available on POSIX systems.")
  else
  let normalized_target := py_strip target in
  if String.eqb normalized_target EmptyString then
    craise (UsageError "`--replicate` requires a target in the form user@host.")
  else if String.prefix "-" normalized_target then
    craise (UsageError "`--replicate` target cannot start with '-'.")
  else if existsb py_isspace (list_ascii_of_string normalized_target) then
    craise (UsageError "`--replicate` target cannot contain spaces.")
  else if negb config_folder_exists then
    craise (UsageError ("Local config folder does not exist: " ++ SHELL_GPT_CONFIG_FOLDER))
  else
  ccatch (replicate_steps normalized_target)
    (fun err => match err with
                | FileNotFoundError f =>
                    craise (UsageError ("Required command not found: " ++ py_or f "unknown"))
                | CalledProcessError cmd =>
                    craise (UsageError ("Remote replication failed while running: "
                                        ++ String.concat " " cmd))
                | e => craise e
                end) ;;>
  echo "Replication complete.".

(** The commands of [cmds] that run when each runs only after the ones
    before it succeeded, and the first one that failed, with its outcome. *)
Fixpoint run_until_failure (cmds : list (list string))
    : list (list string) * option (list string * run_outcome) :=
  match cmds with
  | [] => ([], None)
  | c :: cs =>
      match subprocess_outcome c with
      | Run_ok => let (ran, failed) := run_until_failure cs in (c :: ran, failed)
      | o => ([c], Some (c, o))
      end
  end.

(** [option_callback(func)], the wrapper applied to the value of a boolean
    click option (the only use in the source). *)
Definition option_callback (func : bool -> CM unit) (value : bool) : CM unit :=
  if negb value then cret tt
  else func value ;;> craise TyperExit.

(** The body of [install_shell_integration]. *)
Definition install_shell_integration_body (_value : bool) : CM unit :=
  let shell := env_get environ "SHELL" EmptyString in
  (if py_contains "zsh" shell then
     echo "Installing ZSH integration..." ;;>
     append_file (home ++ "/.zshrc") zsh_integration
   else if py_contains "bash" shell then
     echo "Installing Bash integration..." ;;>
     append_file (home ++ "/.bashrc") bash_integration
   else craise (UsageError "ShellGPT integrations only available for ZSH and Bash.")) ;;>
  echo "Done! Restart your shell to apply changes.".

(** [install_shell_integration], decorated with [option_callback]. *)
Definition install_shell_integration (value : bool) : CM unit :=
  option_callback install_shell_integration_body value.

End Cli.

(** *** [main] of [sgpt/app.py] *)

(** The parameters of [main] after click has parsed the command line; the
    eager callbacks ([--version], [--list-chats], ...) have already run. *)
Record cli_args := mk_args {
  a_prompt : string;
  a_model : option string;
  a_temperature : float;
  a_top_p : float;
  a_md : option bool;
  a_shell : bool;
  a_interaction : option bool;
  a_describe_shell : bool;
  a_code : bool;
  a_functions : option bool;
  a_editor : bool;
  a_cache : bool;
  a_chat : option string;
  a_repl : option string;
  a_show_chat : option string;
  a_role : option string }.

(** Truthiness of an [Optional[str]]. *)
Definition str_truthy (o : option string) : bool :=
  match o with
  | Some s => negb (String.eqb s EmptyString)
  | None => false
  end.

(** [for line in sys.stdin: if "__sgpt__eof__" in line: break; stdin += line] *)
Fixpoint read_stdin (lines : list string) : string :=
  match lines with
  | [] => EmptyString
  | l :: ls => if py_contains "__sgpt__eof__" l then EmptyString else l ++ read_stdin ls
  end.

Definition ascii_lower (c : ascii) : ascii :=
  let n := nat_of_ascii c in
  if Nat.leb 65 n && Nat.leb n 90 then ascii_of_nat (n + 32) else c.

(** [Choice(("e", "m", "d", "a", "y"), case_sensitive=False).convert]:
    the choice whose [casefold()] equals the value's; only a one-letter
    value can match a one-letter ASCII choice. *)
Definition click_choice (value : string) : option string :=
  match value with
  | String c EmptyString =>
      let l := ascii_lower c in
      if existsb (Ascii.eqb l) (list_ascii_of_string "emday")
      then Some (String l EmptyString) else None
  | _ => None
  end.

Section AppMain.

Variable platform_system : string.
Variable environ : string -> option string.
Variable system_effect : string -> files -> files.
Variable tmp_path : string.
Variable stdin_isatty : bool.                    (** [sys.stdin.isatty()] *)
Variable stdin_lines : list string.              (** the lines of stdin, with their ends *)
Variable cfg : string -> option string.          (** [cfg.get] *)
Variable check_get : bool -> bool -> bool -> string.
  (** the name of [DefaultRoles.check_get(shell, describe_shell, code)] *)
Variable system_role_get : string -> cres string.
  (** the name of [SystemRole.get(role)], or what it raises *)
Variable get_openai_schemas : list schema.
Variable handle : handler_call -> cres string.   (** what [handle] returns or raises *)
Variable SHELL CODE DESCRIBE_SHELL : string.     (** [DefaultRoles.*.value] *)
Variable tty_answers : list string.              (** the lines typed at [typer.prompt] *)
Variable tty_edits : list string.                (** the results of [session.prompt] *)

(** [cfg.get(k) == "true"] *)
Definition cfg_true (k : string) : bool :=
  match cfg k with
  | Some v => String.eqb v "true"
  | None => false
  end.

Definition run_handler (hc : handler_call) : CM string :=
  log_action (Act_handle hc) ;;> clift (handle hc).

(** The [while True:] loop of [if shell and shell_interaction:]. [default]
    is the prompt's default answer; an empty line selects it, a value that
    is not a choice is reported and asked again, and the end of input
    aborts the prompt. *)
Fixpoint shell_loop (describe : string -> handler_call) (default : string)
    (answers edits : list string) (full_completion : string) : CM unit :=
  match answers with
  | [] => craise Abort
  | ans :: rest =>
      let value := if String.eqb ans EmptyString then default else ans in
      match click_choice value with
      | None => log_action (Act_invalid_choice value) ;;>
                shell_loop describe default rest edits full_completion
      | Some option =>
          if String.eqb option "e" || String.eqb option "y" then
            run_command platform_system environ system_effect full_completion
          else if String.eqb option "m" then
            match edits with
            | [] => craise EOFError
            | e :: es => shell_loop describe default rest es e
            end
          else if String.eqb option "d" then
            run_handler (describe full_completion) ;;>
            shell_loop describe default rest edits full_completion
          else cret tt
      end
  end.

(** [main], from [stdin_passed = not sys.stdin.isatty()] on. *)
Definition main (a : cli_args) : CM unit :=
  let stdin_passed := negb stdin_isatty in
  let prompt :=
    if stdin_passed then
      let stdin := read_stdin stdin_lines in
      if String.eqb (a_prompt a) EmptyString then stdin
      else stdin ++ nl ++ nl ++ a_prompt a
    else a_prompt a in
  let model_name := if str_truthy (a_model a) then a_model a else cfg "DEFAULT_MODEL" in
  let markdown :=
    match a_md a with Some b => b | None => cfg_true "PRETTIFY_MARKDOWN" end in
  let shell_interaction :=
    match a_interaction a with Some b => b | None => cfg_true "SHELL_INTERACTION" end in
  let use_functions :=
    match a_functions a with Some b => b | None => cfg_true "OPENAI_USE_FUNCTIONS" end in
  (match a_show_chat a with
   | Some c => if str_truthy (Some c) then log_action (Act_show_messages c markdown)
               else cret tt
   | None => cret tt
   end) ;;>
  if Nat.ltb 1 (Nat.b2n (a_shell a) + Nat.b2n (a_describe_shell a) + Nat.b2n (a_code a)) then
    craise (UsageError
      "Only one of --shell, --describe-shell, and --code options can be used at a time.")
  else if str_truthy (a_chat a) && str_truthy (a_repl a) then
    craise (UsageError "--chat and --repl options cannot be used together.")
  else if a_editor a && stdin_passed then
    craise (UsageError "--editor option cannot be used with stdin input.")
  else
  prompt <-- (if a_editor a
              then get_edited_prompt environ system_effect tmp_path
              else cret prompt) ;;
  role_class <-- (match a_role a with
                  | Some r => if str_truthy (Some r) then clift (system_role_get r)
                              else cret (check_get (a_shell a) (a_describe_shell a) (a_code a))
                  | None => cret (check_get (a_shell a) (a_describe_shell a) (a_code a))
                  end) ;;
  let role_supports_functions :=
    negb (is_reserved_role SHELL CODE DESCRIBE_SHELL role_class) in
  let function_schemas :=
    if use_functions && role_supports_functions then
      match get_openai_schemas with [] => None | fs => Some fs end
    else None in
  let call k r p :=
    mk_handler_call k r markdown p model_name (a_temperature a) (a_top_p a)
      (a_cache a) function_schemas in
  (match a_repl a with
   | Some id => if str_truthy (Some id) then run_handler (call (H_repl id) role_class prompt) ;;> cret tt
                else cret tt
   | None => cret tt
   end) ;;>
  full_completion <--
    (match a_chat a with
     | Some id => if str_truthy (Some id) then run_handler (call (H_chat id) role_class prompt)
                  else run_handler (call H_default role_class prompt)
     | None => run_handler (call H_default role_class prompt)
     end) ;;
  if a_shell a && shell_interaction then
    shell_loop (call H_default DESCRIBE_SHELL)
      (if cfg_true "DEFAULT_EXECUTE_SHELL_CMD" then "e" else "a")
      tty_answers tty_edits full_completion
  else cret tt.

End AppMain.

(** The relation [R] holds between the state before and after [m]. *)
Definition sys_preserves {A} (R : sys -> sys -> Prop) (m : CM A) : Prop :=
  forall st, R st (snd (m st)).

(** Actions are only appended, each satisfying [P]. *)
Definition actions_grow (P : action -> Prop) (st st' : sys) : Prop :=
  exists extra, s_actions st' = (s_actions st ++ extra)%list /\ Forall P extra.

(** Concrete inputs for the command-line helpers. *)
Module CliDemo.

Definition st0 : sys := mk_sys [] [] [] [] [].

(** A POSIX environment with [SHELL=/bin/bash] and no [EDITOR]. *)
Definition env_posix (k : string) : option string :=
  if String.eqb k "SHELL" then Some "/bin/bash" else None.

(** A Windows environment where PowerShell set [PSModulePath]. *)
Definition env_win (k : string) : option string :=
  if String.eqb k "PSModulePath" then Some "C:\a;C:\b;C:\c" else None.

(** A [SHELL] naming zsh. *)
Definition env_zsh (k : string) : option string :=
  if String.eqb k "SHELL" then Some "/usr/bin/zsh" else None.

(** [scp] is not installed. *)
Definition no_scp (args : list string) : run_outcome :=
  match args with
  | "scp" :: _ => Run_not_found (Some "scp")
  | _ => Run_ok
  end.

(** An editor that writes ["hello"] into the file it is given. *)
Definition editor_hello (cmd : string) (fs : files) : files :=
  fs_write "/tmp/p.txt" "hello" fs.

Definition no_effect (_ : string) (fs : files) : files := fs.

(** A configuration that runs the suggested command by default. *)
Definition cfg_exec (k : string) : option string :=
  if String.eqb k "DEFAULT_EXECUTE_SHELL_CMD" then Some "true"
  else if String.eqb k "DEFAULT_MODEL" then Some "gpt" else None.

Definition check_get0 (shell describe_shell code : bool) : string :=
  if shell then "S" else if code then "C" else if describe_shell then "D" else "Default".

Definition role_get0 (r : string) : cres string := COk r.

Definition handle_ls (_ : handler_call) : cres string := COk "ls -la".

(** [sgpt --shell "list files"] *)
Definition args_shell : cli_args :=
  mk_args "list files" None 0%Z 1%Z None true None false false None false true
    None None None None.

(** [sgpt --shell --code ...] *)
Definition args_conflict : cli_args :=
  mk_args "x" None 0%Z 1%Z None true None false true None false true
    None None (Some "c1") None.

(** The handler call [main] makes for [args_shell]. *)
Definition hc_shell : handler_call :=
  mk_handler_call H_default "S" false "list files" (Some "gpt") 0%Z 1%Z true None.

End CliDemo.

(* ------------------------------------------------------------------ *)
(** ** Invariants of computations *)

(** [respects R m]: every run of [m] relates its start and end worlds by
    [R]. *)
Section Respects.

Context (R : world -> world -> Prop) {HR : PreOrder R}.

Definition respects {A} (m : M A) : Prop := forall w, R w (snd (m w)).
Arguments respects {A} m.

Lemma respects_ret {A} (a : A) : respects (ret a).
Proof. intros w; reflexivity. Qed.

Lemma respects_raise {A} (e : exn) : respects (A := A) (raise e).
Proof. intros w; reflexivity. Qed.

Lemma respects_get : respects get.
Proof. intros w; reflexivity. Qed.

Lemma respects_bind {A B} (m : M A) (k : A -> M B) :
  respects m -> (forall a, respects (k a)) -> respects (bind m k).
Proof.
  intros Hm Hk w; unfold bind.
  specialize (Hm w); destruct (m w) as [[a | e] w'] eqn:E; simpl in *; auto.
  etransitivity; [exact Hm | apply Hk].
Qed.

Lemma respects_try_kbd {A} (body handler : M A) :
  respects body -> respects handler -> respects (try_kbd body handler).
Proof.
  intros Hb Hh w; unfold try_kbd.
  specialize (Hb w); destruct (body w) as [[a | [] ] w'] eqn:E; simpl in *; auto.
  etransitivity; [exact Hb | apply Hh].
Qed.

Lemma respects_yield_all (Hy : forall s, respects (yield s)) frags :
  respects (yield_all frags).
Proof.
  induction frags as [| f fs IH]; simpl.
  - apply respects_ret.
  - apply respects_bind; auto.
Qed.

End Respects.

(** Decompose a monadic term into its steps. *)
Ltac respects_steps :=
  repeat match goal with
         | |- respects _ (bind _ _) => refine (respects_bind _ _ _ _ _); [ | intros ? ]
         | |- respects _ (try_kbd _ _) => refine (respects_try_kbd _ _ _ _ _)
         | |- respects _ (ret _) => refine (respects_ret _ _)
         | |- respects _ (raise _) => refine (respects_raise _ _)
         | |- respects _ get => refine (respects_get _)
         | |- respects _ (match ?x with _ => _ end) => destruct x
         | |- respects _ (if ?b then _ else _) => destruct b
         | |- respects _ (let '(_, _) := ?p in _) => destruct p
         end.

(* ------------------------------------------------------------------ *)
(** ** Proofs about the engine *)

(** ** Dict lemmas *)

Lemma dict_get_set_eq k v d : dict_get k (dict_set k v d) = Some v.
Proof.
  induction d as [| [k' v'] d IH]; simpl.
  - rewrite String.eqb_refl; reflexivity.
  - destruct (String.eqb_spec k k') as [-> | Hne]; simpl.
    + rewrite String.eqb_refl; reflexivity.
    + apply String.eqb_neq in Hne; rewrite Hne; exact IH.
Qed.

Lemma dict_get_set_neq k k' v d :
  k <> k' -> dict_get k (dict_set k' v d) = dict_get k d.
Proof.
  intros Hne; induction d as [| [k'' v'] d IH]; simpl.
  - apply String.eqb_neq in Hne; rewrite Hne; reflexivity.
  - destruct (String.eqb_spec k' k'') as [-> | Hne']; simpl.
    + apply String.eqb_neq in Hne; rewrite Hne; reflexivity.
    + rewrite IH; reflexivity.
Qed.

Lemma build_request_kwargs_tools kw fs :
  tool_free kw = true ->
  match fs with
  | Some (f :: fs') =>
      dict_get "tool_choice" (build_request_kwargs kw fs) = Some (PStr "auto") /\
      dict_get "tools" (build_request_kwargs kw fs) = Some (PTools (f :: fs')) /\
      dict_get "parallel_tool_calls" (build_request_kwargs kw fs) = Some (PBool false)
  | _ => tool_free (build_request_kwargs kw fs) = true
  end.
Proof.
  intros Hkw; destruct fs as [[| f fs'] |]; simpl; auto.
  rewrite dict_get_set_eq.
  rewrite !dict_get_set_neq by discriminate.
  rewrite dict_get_set_eq.
  rewrite dict_get_set_neq by discriminate.
  rewrite dict_get_set_eq.
  auto.
Qed.

Section Proofs.

Variable cfg : string -> string.
Variable use_litellm : bool.
Variable py_int : string -> option Z.
Variable openai_init_error : dict -> option exn.
Variable json_loads : string -> option (list (string * string)).
Variable get_function : string -> option (list (string * string) -> string).
Variables SHELL CODE DESCRIBE_SHELL : string.
Variable digest : jval -> fingerprint_t.

Local Abbreviation gpc := (get_provider_completion cfg use_litellm py_int openai_init_error).
Local Abbreviation hfc := (handle_function_call cfg json_loads get_function).
Local Abbreviation drain_ := (drain cfg json_loads get_function).
Local Abbreviation body := (completion_body cfg use_litellm py_int openai_init_error
                          json_loads get_function SHELL CODE DESCRIBE_SHELL).
Local Abbreviation gc := (get_completion cfg use_litellm py_int openai_init_error
                        json_loads get_function SHELL CODE DESCRIBE_SHELL digest).
Local Abbreviation resolve := (resolve_functions SHELL CODE DESCRIBE_SHELL).

Lemma gc_unfold role script c model t p fs :
  gc role script c model t p fs =
  (w <- get;;
   cache_wrap c (request_fingerprint digest model t p w.(w_messages) fs) script
     (body (fun rest => gc role rest false model t p (resolve role fs))
        role script model t p fs)).
Proof. destruct script; reflexivity. Qed.

Section Generic.

Context (R : world -> world -> Prop) {HR : PreOrder R}.
Hypothesis Hyield : forall s, respects R (yield s).
Hypothesis Happend : forall m, respects R (append_message m).
Hypothesis Hcfg : forall k, respects R (read_cfg cfg k).
Hypothesis Hinvoke : forall n f a, respects R (invoke_function n f a).
Hypothesis Hclose : forall i, respects R (close_response i).
Hypothesis Hstore : forall fp fr, respects R (store_put fp fr).

Lemma respects_hfc i n a : respects R (hfc i n a).
Proof.
  unfold handle_function_call, cfg_get.
  respects_steps; auto.
Qed.

Lemma respects_drain recur rest evs a :
  respects R recur -> respects R (drain_ recur rest evs a).
Proof.
  intros Hr; revert a; induction evs as [| ev evs IH]; intros a; simpl.
  - refine (respects_ret _ _).
  - destruct ev as [[| ch chs] |]; simpl.
    + apply IH.
    + destruct (accumulate a (ch_tool_calls ch)) as [[i n] args].
      destruct (is_tool_calls_finish ch).
      * refine (respects_bind _ _ _ _ _); [apply respects_hfc | intros; exact Hr].
      * refine (respects_bind _ _ _ _ _); [apply Hyield | intros; apply IH].
    + refine (respects_raise _ _).
Qed.

Lemma respects_cache_wrap c fp script producer :
  respects R (log_cache_call c) -> respects R producer ->
  respects R (cache_wrap c fp script producer).
Proof.
  intros Hl Hp; unfold cache_wrap.
  refine (respects_bind _ _ _ _ _); [exact Hl | intros _].
  destruct c; [| exact Hp].
  refine (respects_bind _ _ _ _ _); [refine (respects_get _) | intros w0].
  destruct (store_lookup fp (w_store w0)).
  - refine (respects_bind _ _ _ _ _); [apply respects_yield_all; auto | intros; refine (respects_ret _ _)].
  - respects_steps; auto.
Qed.

Variable role : string.
Hypothesis Hpre : forall model t p fs (k : nat -> M (list segment)),
  (forall idx, respects R (k idx)) ->
  respects R (p0 <- gpc;;
              let '(cap, kw) := p0 in
              bind (call_provider cap model t p (build_request_kwargs kw (resolve role fs))) k).
Hypothesis Hlog_false : respects R (log_cache_call false).

Lemma respects_body recur script model t p fs :
  (forall seg rest, script = seg :: rest -> respects R (recur rest)) ->
  respects R (body recur role script model t p fs).
Proof.
  intros Hr; unfold completion_body; cbv zeta.
  apply Hpre; intros idx.
  destruct script as [| seg rest].
  - refine (respects_raise _ _).
  - refine (respects_try_kbd _ _ _ _ _).
    + apply respects_drain, (Hr seg rest eq_refl).
    + refine (respects_bind _ _ _ _ _); [apply Hclose | intros; refine (respects_ret _ _)].
Qed.

Lemma respects_gc script : forall c model t p fs,
  respects R (log_cache_call c) -> respects R (gc role script c model t p fs).
Proof.
  induction script as [| seg rest IH]; intros c model t p fs Hl; rewrite gc_unfold;
    (refine (respects_bind _ _ _ _ _); [refine (respects_get _) | intros w]);
    apply respects_cache_wrap; auto; apply respects_body.
  - intros seg rest H; discriminate H.
  - intros seg' rest' H; injection H as <- <-; apply IH, Hlog_false.
Qed.

End Generic.
(** [get_provider_completion] issues no provider request, hands out the
    memoized kwargs, and never stores a dict with tool keys. *)
Lemma gpc_spec w :
  w_requests (snd (gpc w)) = w_requests w /\
  w_messages (snd (gpc w)) = w_messages w /\
  (tool_free (w_completion_kwargs w) = true ->
   tool_free (w_completion_kwargs (snd (gpc w))) = true) /\
  (forall cap kw, fst (gpc w) = Ok (cap, kw) -> kw = w_completion_kwargs (snd (gpc w))).
Proof.
  destruct w as [comp ckw reads ms out fl reqs cl cc st].
  unfold get_provider_completion, cfg_get, read_cfg, bind, get, ret, raise,
    set_completion, with_world; simpl.
  destruct comp as [cap |]; simpl.
  - repeat split; auto; intros ? ? H; injection H as _ <-; reflexivity.
  - destruct (py_int _); simpl.
    + destruct use_litellm; simpl.
      * repeat split; auto; intros ? ? H; injection H as _ <-; reflexivity.
      * destruct (openai_init_error _); simpl.
        -- repeat split; auto; intros ? ? H; discriminate H.
        -- repeat split; auto; intros ? ? H; injection H as _ <-; reflexivity.
    + repeat split; auto; intros ? ? H; discriminate H.
Qed.

(** The steps of [get_provider_completion] followed by the provider call
    respect any relation that its effects respect. *)
Lemma pre_of_steps (R : world -> world -> Prop) {HR : PreOrder R} role :
  (forall k, respects R (read_cfg cfg k)) ->
  (forall c kw, respects R (set_completion c kw)) ->
  (forall cap model t p kw, respects R (call_provider cap model t p kw)) ->
  forall model t p fs (k : nat -> M (list segment)),
  (forall idx, respects R (k idx)) ->
  respects R (p0 <- gpc;;
              let '(cap, kw) := p0 in
              bind (call_provider cap model t p (build_request_kwargs kw (resolve role fs))) k).
Proof.
  intros Hcfg Hset Hcall model t p fs k Hk.
  refine (respects_bind _ _ _ _ _).
  - unfold get_provider_completion, cfg_get; respects_steps; auto.
  - intros [cap kw]; refine (respects_bind _ _ _ _ _); auto.
Qed.

Lemma bind_with_world {A} f (k : unit -> M A) w :
  bind (with_world f) k w = k tt (f w).
Proof. reflexivity. Qed.

Lemma bind_get_run {A} (k : world -> M A) w : (x <- get;; k x) w = k w w.
Proof. reflexivity. Qed.

(** *** The caching log only receives [false] entries *)

#[local] Instance calls_false_preorder : PreOrder calls_false.
Proof.
  split.
  - intros w; exists 0; symmetry; apply app_nil_r.
  - intros w1 w2 w3 [k1 H1] [k2 H2]; exists (k1 + k2).
    rewrite H2, H1, repeat_app, app_assoc; reflexivity.
Qed.

Ltac frame_calls_false :=
  intros; intros []; exists 0; cbn; symmetry; apply app_nil_r.

Lemma calls_false_steps :
  (forall s, respects calls_false (yield s)) /\
  (forall m, respects calls_false (append_message m)) /\
  (forall k, respects calls_false (read_cfg cfg k)) /\
  (forall n f a, respects calls_false (invoke_function n f a)) /\
  (forall i, respects calls_false (close_response i)) /\
  (forall fp fr, respects calls_false (store_put fp fr)) /\
  (forall c kw, respects calls_false (set_completion c kw)) /\
  (forall cap model t p kw, respects calls_false (call_provider cap model t p kw)) /\
  respects calls_false (log_cache_call false).
Proof.
  repeat split; try frame_calls_false.
  intros []; exists 1; reflexivity.
Qed.

Lemma gc_calls_false role script model t p fs :
  respects calls_false (gc role script false model t p fs).
Proof.
  destruct calls_false_steps as (Hy & Ha & Hc & Hi & Hcl & Hs & Hset & Hcall & Hl).
  apply (respects_gc calls_false); auto.
  intros; apply (pre_of_steps calls_false); auto.
Qed.

Lemma cache_wrap_calls c fp script (producer : M (list segment)) w :
  respects calls_false producer ->
  exists k, w_cache_calls (snd (cache_wrap c fp script producer w))
            = (w_cache_calls w ++ c :: repeat false k)%list.
Proof.
  destruct calls_false_steps as (Hy & Ha & Hc & Hi & Hcl & Hs & Hset & Hcall & Hl).
  intros Hp.
  assert (Hrest : respects calls_false
                    (if c then
                       w0 <- get;;
                       match store_lookup fp (w_store w0) with
                       | Some frags => yield_all frags;;; ret script
                       | None =>
                           rest <- producer;;
                           w1 <- get;;
                           store_put fp (skipn (length (w_out w0)) (w_out w1));;;
                           ret rest
                       end
                     else producer)).
  { destruct c; [| exact Hp].
    respects_steps; auto; apply (respects_yield_all calls_false); auto. }
  unfold cache_wrap, log_cache_call; rewrite bind_with_world.
  match goal with
  | |- exists k, w_cache_calls (snd (_ ?w')) = _ => destruct (Hrest w') as [k Hk]
  end.
  exists k; rewrite Hk; destruct w; simpl; rewrite <- app_assoc; reflexivity.
Qed.

(** C7: every call of the decorated [get_completion] issued by a tool-call
    resolution passes [caching=False]: in the caching log of a run, the outer
    call's flag [c] is followed only by [false] entries, whatever [c] is. *)
Theorem recursive_calls_pass_caching_false role script c model t p fs w :
  exists k, w_cache_calls
              (snd (get_completion cfg use_litellm py_int openai_init_error
                      json_loads get_function SHELL CODE DESCRIBE_SHELL digest
                      role script c model t p fs w))
            = (w_cache_calls w ++ c :: repeat false k)%list.
Proof.
  destruct calls_false_steps as (Hy & Ha & Hc & Hi & Hcl & Hs & Hset & Hcall & Hl).
  rewrite gc_unfold, bind_get_run.
  apply cache_wrap_calls.
  apply (respects_body calls_false); auto.
  - intros; apply (pre_of_steps calls_false); auto.
  - intros; apply gc_calls_false.
Qed.

(** *** Provider requests are only ever appended *)

#[local] Instance req_prefix_preorder : PreOrder req_prefix.
Proof.
  split.
  - intros w; exists []; symmetry; apply app_nil_r.
  - intros w1 w2 w3 [l1 H1] [l2 H2]; exists (l1 ++ l2)%list.
    rewrite H2, H1, app_assoc; reflexivity.
Qed.

Lemma req_prefix_steps :
  (forall s, respects req_prefix (yield s)) /\
  (forall m, respects req_prefix (append_message m)) /\
  (forall k, respects req_prefix (read_cfg cfg k)) /\
  (forall n f a, respects req_prefix (invoke_function n f a)) /\
  (forall i, respects req_prefix (close_response i)) /\
  (forall fp fr, respects req_prefix (store_put fp fr)) /\
  (forall c kw, respects req_prefix (set_completion c kw)) /\
  (forall cap model t p kw, respects req_prefix (call_provider cap model t p kw)) /\
  (forall c, respects req_prefix (log_cache_call c)).
Proof.
  repeat split; intros; intros []; cbn;
    solve [exists []; symmetry; apply app_nil_r | eexists; reflexivity].
Qed.

Lemma gc_req_prefix role script c model t p fs :
  respects req_prefix (gc role script c model t p fs).
Proof.
  destruct req_prefix_steps as (Hy & Ha & Hc & Hi & Hcl & Hs & Hset & Hcall & Hl).
  apply (respects_gc req_prefix); auto.
  intros; apply (pre_of_steps req_prefix); auto.
Qed.

Lemma bind_run {A B} (m : M A) (k : A -> M B) w :
  bind m k w = match m w with
               | (Ok a, w') => k a w'
               | (Err e, w') => (Err e, w')
               end.
Proof. reflexivity. Qed.

(** The first request a call of [get_completion]'s body sends carries the
    memoized kwargs extended by [build_request_kwargs]. *)
Lemma body_first_request recur role script model t p fs w :
  tool_free (w_completion_kwargs w) = true ->
  (forall rest, respects req_prefix (recur rest)) ->
  ((exists e, fst (body recur role script model t p fs w) = Err e) /\
   w_requests (snd (body recur role script model t p fs w)) = w_requests w) \/
  exists kw ca l,
    tool_free kw = true /\
    pc_kwargs ca = build_request_kwargs kw (resolve role fs) /\
    w_requests (snd (body recur role script model t p fs w))
      = (w_requests w ++ ca :: l)%list.
Proof.
  destruct req_prefix_steps as (Hy & Ha & Hc & Hi & Hcl & Hs & Hset & Hcall & Hl).
  intros Hfree Hrec.
  destruct (gpc_spec w) as (Hr & _ & Ht & Hk).
  unfold completion_body; cbv zeta; rewrite bind_run.
  destruct (gpc w) as [[[cap kw] | e] w1] eqn:E; simpl in Hr, Ht, Hk;
    [| left; split; [eexists; reflexivity | exact Hr]].
  specialize (Hk cap kw eq_refl); subst kw.
  right; rewrite bind_run.
  set (ca := mk_call cap model t p (w_messages w1) true
               (build_request_kwargs (w_completion_kwargs w1) (resolve role fs))).
  exists (w_completion_kwargs w1), ca.
  assert (Hrest : forall idx, respects req_prefix
            (match script with
             | [] => raise (ProviderError "no response")
             | seg :: rest =>
                 try_kbd (drain_ (recur rest) rest seg ("", "", ""))
                   (close_response idx;;; ret rest)
             end)).
  { intros idx; destruct script as [| seg rest]; respects_steps; auto.
    apply (respects_drain req_prefix); auto. }
  destruct w1 as [comp ckw reads ms out fl reqs cl cc st]; simpl in *.
  destruct (Hrest (length reqs)
              (mk_world comp ckw reads ms out fl (reqs ++ [ca]) cl cc st))
    as [l Hl'].
  exists l; repeat split; auto.
  subst ca; rewrite Hl'; simpl; rewrite Hr, <- app_assoc; reflexivity.
Qed.

Lemma bind_ret_run {A} (m : M A) w : bind m ret w = m w.
Proof. unfold bind; destruct (m w) as [[a | e] w']; reflexivity. Qed.

Lemma yield_all_requests frags w :
  w_requests (snd (yield_all frags w)) = w_requests w.
Proof.
  revert w; induction frags as [| f fs IH]; intros w; [reflexivity |].
  simpl; rewrite bind_run; simpl; rewrite IH; destruct w; reflexivity.
Qed.

Lemma nth_error_at_length {A} (xs l : list A) (y : A) :
  nth_error (xs ++ y :: l)%list (length xs) = Some y.
Proof. rewrite nth_error_app2, Nat.sub_diag by lia; reflexivity. Qed.

Lemma nth_error_length_none {A} (xs : list A) : nth_error xs (length xs) = None.
Proof. apply nth_error_None; lia. Qed.

Lemma body_then_first_request recur role script model t p fs
    (K : list segment -> M (list segment)) w ca :
  tool_free (w_completion_kwargs w) = true ->
  (forall rest, respects req_prefix (recur rest)) ->
  (forall a, respects req_prefix (K a)) ->
  nth_error (w_requests (snd (bind (body recur role script model t p fs) K w)))
    (length (w_requests w)) = Some ca ->
  exists kw, tool_free kw = true /\
             pc_kwargs ca = build_request_kwargs kw (resolve role fs).
Proof.
  intros Hfree Hrec HK Hnth.
  destruct (body_first_request recur role script model t p fs w Hfree Hrec)
    as [[[e0 He] Hsame] | (kw & ca0 & l & Hkw & Hca0 & Hreq)];
  rewrite bind_run in Hnth;
  destruct (body recur role script model t p fs w) as [[a | e] w1]; simpl in *.
  - discriminate He.
  - rewrite Hsame, nth_error_length_none in Hnth; discriminate.
  - destruct (HK a w1) as [l2 Hl2]; rewrite Hl2, Hreq, <- app_assoc in Hnth.
    simpl in Hnth; rewrite nth_error_at_length in Hnth; injection Hnth as <-.
    exists kw; auto.
  - rewrite Hreq, nth_error_at_length in Hnth; injection Hnth as <-.
    exists kw; auto.
Qed.

(** C6: the provider request carries the tool fields exactly when the
    resolved schema list is non-empty: then [tool_choice] is ["auto"],
    [tools] is the schema list and [parallel_tool_calls] is [False]; when
    the resolved list is empty or absent, none of the three keys is sent.
    (The memoized provider kwargs never hold these keys, see [gpc_spec].) *)
Theorem provider_request_tool_fields role script c model t p fs w ca :
  tool_free (w_completion_kwargs w) = true ->
  nth_error (w_requests (snd (gc role script c model t p fs w)))
    (length (w_requests w)) = Some ca ->
  match resolve role fs with
  | Some (f :: fs') =>
      dict_get "tool_choice" (pc_kwargs ca) = Some (PStr "auto") /\
      dict_get "tools" (pc_kwargs ca) = Some (PTools (f :: fs')) /\
      dict_get "parallel_tool_calls" (pc_kwargs ca) = Some (PBool false)
  | _ => tool_free (pc_kwargs ca) = true
  end.
Proof.
  intros Hfree Hnth.
  assert (Hrec : forall rest, respects req_prefix
                   (gc role rest false model t p (resolve role fs)))
    by (intros; apply gc_req_prefix).
  assert (Hbody : forall (K : list segment -> M (list segment)) w1,
             w_requests w1 = w_requests w ->
             w_completion_kwargs w1 = w_completion_kwargs w ->
             (forall a, respects req_prefix (K a)) ->
             nth_error (w_requests (snd (bind (body (fun rest =>
                 gc role rest false model t p (resolve role fs))
                 role (script) model t p fs) K w1))) (length (w_requests w))
               = Some ca ->
             match resolve role fs with
             | Some (f :: fs') =>
                 dict_get "tool_choice" (pc_kwargs ca) = Some (PStr "auto") /\
                 dict_get "tools" (pc_kwargs ca) = Some (PTools (f :: fs')) /\
                 dict_get "parallel_tool_calls" (pc_kwargs ca) = Some (PBool false)
             | _ => tool_free (pc_kwargs ca) = true
             end).
  { intros K w1 Hr1 Hk1 HK Hn.
    rewrite <- Hr1 in Hn.
    destruct (body_then_first_request
                (fun rest => gc role rest false model t p (resolve role fs))
                role script model t p fs K w1 ca)
      as (kw & Hkw & ->); auto.
    - rewrite Hk1; exact Hfree.
    - apply build_request_kwargs_tools; exact Hkw. }
  rewrite gc_unfold, bind_get_run in Hnth.
  unfold cache_wrap, log_cache_call in Hnth; rewrite bind_with_world in Hnth.
  destruct c.
  - rewrite bind_get_run in Hnth.
    destruct (store_lookup _ _) as [frags |] eqn:Hlook.
    + rewrite bind_run in Hnth.
      destruct (yield_all frags _) as [r w1] eqn:Ey.
      pose proof (yield_all_requests frags
        (mk_world (w_completion w) (w_completion_kwargs w) (w_cfg_reads w)
           (w_messages w) (w_out w) (w_fn_log w) (w_requests w) (w_closed w)
           (w_cache_calls w ++ [true]) (w_store w))) as Hy.
      destruct w; simpl in *; rewrite Ey in Hy; simpl in Hy.
      destruct r; simpl in Hnth; rewrite Hy, nth_error_length_none in Hnth;
        discriminate.
    + refine (Hbody _
                (mk_world (w_completion w) (w_completion_kwargs w) (w_cfg_reads w)
                   (w_messages w) (w_out w) (w_fn_log w) (w_requests w) (w_closed w)
                   (w_cache_calls w ++ [true]) (w_store w)) eq_refl eq_refl _ Hnth).
      intros a; destruct req_prefix_steps as (_ & _ & _ & _ & _ & Hs & _).
      respects_steps; auto.
  - refine (Hbody ret
              (mk_world (w_completion w) (w_completion_kwargs w) (w_cfg_reads w)
                 (w_messages w) (w_out w) (w_fn_log w) (w_requests w) (w_closed w)
                 (w_cache_calls w ++ [false]) (w_store w)) eq_refl eq_refl
              (fun _ => respects_ret _ _) _).
    all: solve [exact req_prefix_preorder | rewrite bind_ret_run; exact Hnth].
Qed.

(** *** No request of a reserved role carries tool fields *)

#[local] Instance no_tools_sent_preorder : PreOrder no_tools_sent.
Proof.
  split.
  - intros w H; split; [exact H |].
    exists []; split; [symmetry; apply app_nil_r | constructor].
  - intros w1 w2 w3 H12 H23 H1.
    destruct (H12 H1) as (H2 & l1 & E1 & F1).
    destruct (H23 H2) as (H3 & l2 & E2 & F2).
    split; [exact H3 |].
    exists (l1 ++ l2)%list; split.
    + rewrite E2, E1, app_assoc; reflexivity.
    + apply Forall_app; auto.
Qed.

Ltac frame_no_tools :=
  repeat intro; match goal with w : world |- _ => destruct w end; cbn in *;
  split; [assumption |];
  exists []; split; [symmetry; apply app_nil_r | constructor].

Lemma no_tools_sent_steps :
  (forall s, respects no_tools_sent (yield s)) /\
  (forall m, respects no_tools_sent (append_message m)) /\
  (forall k, respects no_tools_sent (read_cfg cfg k)) /\
  (forall n f a, respects no_tools_sent (invoke_function n f a)) /\
  (forall i, respects no_tools_sent (close_response i)) /\
  (forall fp fr, respects no_tools_sent (store_put fp fr)) /\
  (forall c, respects no_tools_sent (log_cache_call c)).
Proof. repeat match goal with |- _ /\ _ => split end; frame_no_tools. Qed.

Lemma resolve_reserved role fs :
  role = SHELL \/ role = CODE \/ role = DESCRIBE_SHELL -> resolve role fs = None.
Proof.
  intros Hrole; unfold resolve_functions, is_reserved_role.
  destruct Hrole as [-> | [-> | ->]]; rewrite String.eqb_refl;
    rewrite ?orb_true_r; reflexivity.
Qed.

Lemma pre_no_tools role :
  role = SHELL \/ role = CODE \/ role = DESCRIBE_SHELL ->
  forall model t p fs (k : nat -> M (list segment)),
  (forall idx, respects no_tools_sent (k idx)) ->
  respects no_tools_sent
    (p0 <- gpc;;
     let '(cap, kw) := p0 in
     bind (call_provider cap model t p (build_request_kwargs kw (resolve role fs))) k).
Proof.
  intros Hrole model t p fs k Hk w Hinv.
  rewrite (resolve_reserved role fs Hrole).
  destruct (gpc_spec w) as (Hr & _ & Ht & Hkw).
  rewrite bind_run.
  destruct (gpc w) as [[[cap kw] | e] w1]; simpl in Hr, Ht, Hkw |- *.
  - specialize (Hkw cap kw eq_refl); subst kw.
    rewrite bind_run; simpl.
    set (w2 := mk_world (w_completion w1) (w_completion_kwargs w1) (w_cfg_reads w1)
                 (w_messages w1) (w_out w1) (w_fn_log w1)
                 (w_requests w1 ++
                    [mk_call cap model t p (w_messages w1) true (w_completion_kwargs w1)])
                 (w_closed w1) (w_cache_calls w1) (w_store w1)).
    destruct (Hk (length (w_requests w1)) w2 (Ht Hinv)) as (H3 & l & E & F).
    split; [exact H3 |].
    exists (mk_call cap model t p (w_messages w1) true (w_completion_kwargs w1) :: l).
    split.
    + rewrite E; simpl; rewrite Hr, <- app_assoc; reflexivity.
    + constructor; [exact (Ht Hinv) | exact F].
  - split; [exact (Ht Hinv) |].
    exists []; split; [rewrite Hr; symmetry; apply app_nil_r | constructor].
Qed.

(** C2: for a handler whose role is one of the built-in shell, code and
    describe-shell roles, no provider request of a run carries a [tools]
    argument, whatever [functions] list the caller passes.  The hypothesis
    on the memoized provider kwargs holds in every reachable state
    ([gpc_spec]). *)
Theorem reserved_roles_never_send_tools role script c model t p fs w :
  role = SHELL \/ role = CODE \/ role = DESCRIBE_SHELL ->
  tool_free (w_completion_kwargs w) = true ->
  exists l,
    w_requests (snd (gc role script c model t p fs w)) = (w_requests w ++ l)%list /\
    Forall (fun ca => dict_get "tools" (pc_kwargs ca) = None) l.
Proof.
  intros Hrole Hfree.
  destruct no_tools_sent_steps as (Hy & Ha & Hc & Hi & Hcl & Hs & Hl).
  assert (Hgc : respects no_tools_sent (gc role script c model t p fs)).
  { apply (respects_gc no_tools_sent); auto.
    apply pre_no_tools; exact Hrole. }
  destruct (Hgc w Hfree) as (_ & l & E & F).
  exists l; split; [exact E |].
  eapply Forall_impl; [| exact F].
  intros ca; unfold tool_free.
  destruct (dict_get "tools" (pc_kwargs ca)); [discriminate | reflexivity].
Qed.

(** *** The provider capability is memoized *)

#[local] Instance memo_kept_preorder : PreOrder memo_kept.
Proof.
  split.
  - intros w c H; split; [exact H | reflexivity].
  - intros w1 w2 w3 H12 H23 c H1.
    destruct (H12 c H1) as [H2 K2]; destruct (H23 c H2) as [H3 K3].
    split; [exact H3 | rewrite K3; exact K2].
Qed.

Ltac frame_memo :=
  intros; intros []; intros ? H; cbn in *; split; [exact H | reflexivity].

Lemma memo_kept_steps :
  (forall s, respects memo_kept (yield s)) /\
  (forall m, respects memo_kept (append_message m)) /\
  (forall k, respects memo_kept (read_cfg cfg k)) /\
  (forall n f a, respects memo_kept (invoke_function n f a)) /\
  (forall i, respects memo_kept (close_response i)) /\
  (forall fp fr, respects memo_kept (store_put fp fr)) /\
  (forall cap model t p kw, respects memo_kept (call_provider cap model t p kw)) /\
  (forall c, respects memo_kept (log_cache_call c)).
Proof. repeat match goal with |- _ /\ _ => split end; frame_memo. Qed.

(** Once memoized, [get_provider_completion] returns the memo and touches
    nothing (in particular it reads no configuration). *)
Lemma gpc_memo w c :
  w_completion w = Some c -> gpc w = (Ok (c, w_completion_kwargs w), w).
Proof.
  intros H; unfold get_provider_completion, bind, get; rewrite H; reflexivity.
Qed.

Lemma gpc_memo_kept : respects memo_kept gpc.
Proof.
  intros w c H; rewrite (gpc_memo w c H); split; [exact H | reflexivity].
Qed.

Lemma gc_memo_kept role script c model t p fs :
  respects memo_kept (gc role script c model t p fs).
Proof.
  destruct memo_kept_steps as (Hy & Ha & Hc & Hi & Hcl & Hs & Hcall & Hl).
  apply (respects_gc memo_kept); auto.
  intros model' t' p' fs' k Hk.
  refine (respects_bind _ _ _ _ _); [exact gpc_memo_kept |].
  intros [cap kw]; refine (respects_bind _ _ _ _ _); auto.
Qed.

(** C8: a successful first call of [get_provider_completion] memoizes the
    capability and kwargs it returns; no run of [get_completion] changes the
    memo, and every later call returns the same capability and equal kwargs
    without reading the configuration or changing anything else. *)
Theorem provider_completion_memoized w cap kw w1 :
  gpc w = (Ok (cap, kw), w1) ->
  w_completion w1 = Some cap /\ w_completion_kwargs w1 = kw /\
  (forall role script c model t p fs,
     memo_kept w1 (snd (gc role script c model t p fs w1))) /\
  (forall w2, memo_kept w1 w2 -> gpc w2 = (Ok (cap, kw), w2)).
Proof.
  intros Hrun.
  assert (Hm : w_completion w1 = Some cap /\ w_completion_kwargs w1 = kw).
  { destruct w as [comp ckw reads ms out fl reqs cl cc st].
    revert Hrun.
    unfold get_provider_completion, cfg_get, read_cfg, bind, get, ret, raise,
      set_completion, with_world; simpl.
    destruct comp as [cap' |]; simpl.
    - intros H; injection H as <- <- <-; auto.
    - destruct (py_int _); simpl; [| discriminate].
      destruct use_litellm; simpl.
      + intros H; injection H as <- <- <-; auto.
      + destruct (openai_init_error _); simpl; [discriminate |].
        intros H; injection H as <- <- <-; auto. }
  destruct Hm as [Hc Hk].
  split; [exact Hc |]; split; [exact Hk |]; split.
  - intros; apply gc_memo_kept.
  - intros w2 H2; destruct (H2 cap Hc) as [Hc2 Hk2].
    rewrite (gpc_memo w2 cap Hc2), Hk2, Hk; reflexivity.
Qed.

(** *** Draining concrete stream shapes *)

Lemma set_out_set_out o o' w : set_out o (set_out o' w) = set_out o w.
Proof. destruct w; reflexivity. Qed.

Lemma w_out_set_out o w : w_out (set_out o w) = o.
Proof. destruct w; reflexivity. Qed.

(** Chunks that do not finish with [tool_calls] yield their fragments. *)
Lemma drain_plain recur rest cs evs a w :
  no_tool_finish cs = true ->
  drain_ recur rest (map Ev_chunk cs ++ evs)%list a w =
  drain_ recur rest evs (acc_chunks a cs) (set_out (w_out w ++ chunk_fragments cs)%list w).
Proof.
  revert a w; induction cs as [| c cs IH]; intros a w Hn; simpl.
  - rewrite app_nil_r; destruct w; reflexivity.
  - simpl in Hn; destruct c as [| ch chs].
    + rewrite (IH a w Hn); reflexivity.
    + apply andb_prop in Hn as [Hc Hn].
      destruct (is_tool_calls_finish ch) eqn:Ef; [discriminate Hc |].
      unfold bind at 1, yield, with_world.
      rewrite (IH _ _ Hn), set_out_set_out, w_out_set_out, <- app_assoc.
      reflexivity.
Qed.

(** A chunk finishing with [tool_calls] hands the accumulated call over. *)
Lemma drain_finish recur rest ch chs evs a :
  is_tool_calls_finish ch = true ->
  drain_ recur rest (Ev_chunk (ch :: chs) :: evs) a =
  (let '(i, n, args) := accumulate a (ch_tool_calls ch) in hfc i n args;;; recur).
Proof. intros H; simpl; rewrite H; reflexivity. Qed.

Lemma acc_chunks_app a cs cs' :
  acc_chunks a (cs ++ cs') = acc_chunks (acc_chunks a cs) cs'.
Proof. unfold acc_chunks; apply fold_left_app. Qed.

Lemma match_snoc {A B} (xs : list A) (x : A) (k1 k2 : B) :
  match (xs ++ [x])%list with [] => k1 | _ :: _ => k2 end = k2.
Proof. destruct xs; reflexivity. Qed.

(** A successful [handle_function_call]. *)
Lemma hfc_ok i n args d f w :
  json_loads args = Some d -> get_function n = Some f ->
  hfc i n args w =
  (Ok tt,
   mk_world (w_completion w) (w_completion_kwargs w)
     (w_cfg_reads w ++ ["SHOW_FUNCTIONS_OUTPUT"])
     (w_messages w ++ [AssistantToolCall i n args; ToolResult (f d) i])
     (w_out w ++ [nl; function_call_line n d] ++
      (if String.eqb (cfg "SHOW_FUNCTIONS_OUTPUT") "true"
       then [function_output_block (f d)] else []))
     (w_fn_log w ++ [(n, d)]) (w_requests w) (w_closed w)
     (w_cache_calls w) (w_store w)).
Proof.
  intros Hj Hf; destruct w as [comp ckw reads ms out fl reqs cl cc st].
  unfold handle_function_call, cfg_get, read_cfg, bind, get, ret, yield,
    append_message, invoke_function, with_world, set_messages, set_out; simpl.
  rewrite last_last, match_snoc.
  rewrite Hj, Hf.
  destruct (String.eqb (cfg "SHOW_FUNCTIONS_OUTPUT") "true"); simpl;
    repeat rewrite <- app_assoc; reflexivity.
Qed.

(** [handle_function_call] on arguments [json.loads] rejects. *)
Lemma hfc_json_error i n args w :
  json_loads args = None ->
  hfc i n args w =
  (Err (JSONDecodeError args),
   mk_world (w_completion w) (w_completion_kwargs w) (w_cfg_reads w)
     (w_messages w ++ [AssistantToolCall i n args]) (w_out w ++ [nl])
     (w_fn_log w) (w_requests w) (w_closed w) (w_cache_calls w) (w_store w)).
Proof.
  intros Hj; destruct w as [comp ckw reads ms out fl reqs cl cc st].
  unfold handle_function_call, bind, get, ret, raise, yield,
    append_message, with_world, set_messages, set_out; simpl.
  rewrite last_last, match_snoc.
  rewrite Hj; reflexivity.
Qed.

Lemma gc_live role seg rest model t p fs w cap :
  w_completion w = Some cap ->
  gc role (seg :: rest) false model t p fs w =
  try_kbd (drain_ (gc role rest false model t p (resolve role fs)) rest seg ("", "", ""))
    (close_response (length (w_requests w));;; ret rest)
    (live_world cap model t p
       (build_request_kwargs (w_completion_kwargs w) (resolve role fs)) w).
Proof.
  intros H; destruct w as [comp ckw reads ms out fl reqs cl cc st].
  simpl in H; subst comp; reflexivity.
Qed.

(** A successful [get_provider_completion] depends only on the memo: run in
    any world with the same memo, it returns the same capability and
    kwargs, memoizes them and changes nothing but the configuration reads. *)
Lemma gpc_ok_frame w cap kw w' :
  fst (gpc w) = Ok (cap, kw) ->
  w_completion w' = w_completion w -> w_completion_kwargs w' = w_completion_kwargs w ->
  exists reads,
    gpc w' = (Ok (cap, kw),
              mk_world (Some cap) kw reads (w_messages w') (w_out w') (w_fn_log w')
                (w_requests w') (w_closed w') (w_cache_calls w') (w_store w')).
Proof.
  intros Hp Hc Hk.
  destruct w as [comp ckw reads ms out fl reqs cl cc st].
  destruct w' as [comp' ckw' reads' ms' out' fl' reqs' cl' cc' st'].
  cbn in Hc, Hk; subst comp' ckw'.
  revert Hp.
  unfold get_provider_completion, cfg_get, read_cfg, bind, get, ret, raise,
    set_completion, with_world; cbn.
  destruct comp as [c0 |]; cbn.
  - intros H; injection H as <- <-; exists reads'; reflexivity.
  - destruct (py_int _); cbn; [| discriminate].
    destruct use_litellm; cbn.
    + intros H; injection H as <- <-; eexists; reflexivity.
    + destruct (openai_init_error _); cbn; [discriminate |].
      intros H; injection H as <- <-; eexists; reflexivity.
Qed.

(** A call that is not answered from the cache and whose provider resolves:
    it logs its flag, sends one request and drains the first response; with
    caching on, what it yielded is stored once it returns. *)
Lemma gc_enter role seg rest c model t p fs w cap kw :
  fst (gpc w) = Ok (cap, kw) ->
  c = false \/
  store_lookup (request_fingerprint digest model t p (w_messages w) fs) (w_store w) = None ->
  exists reads,
  gc role (seg :: rest) c model t p fs w =
  (if c then
     (r' <- try_kbd (drain_ (gc role rest false model t p (resolve role fs)) rest seg
                       ("", "", ""))
              (close_response (length (w_requests w));;; ret rest);;
      w1 <- get;;
      store_put (request_fingerprint digest model t p (w_messages w) fs)
        (skipn (length (w_out w)) (w_out w1));;;
      ret r')
   else try_kbd (drain_ (gc role rest false model t p (resolve role fs)) rest seg
                   ("", "", ""))
          (close_response (length (w_requests w));;; ret rest))
  (mk_world (Some cap) kw reads (w_messages w) (w_out w) (w_fn_log w)
     (w_requests w ++ [mk_call cap model t p (w_messages w) true
                         (build_request_kwargs kw (resolve role fs))])
     (w_closed w) (w_cache_calls w ++ [c]) (w_store w))%list.
Proof.
  intros Hp Hm.
  destruct (gpc_ok_frame w cap kw
              (mk_world (w_completion w) (w_completion_kwargs w) (w_cfg_reads w)
                 (w_messages w) (w_out w) (w_fn_log w) (w_requests w) (w_closed w)
                 (w_cache_calls w ++ [c]) (w_store w)) Hp eq_refl eq_refl) as [reads Eg].
  exists reads.
  rewrite gc_unfold. unfold cache_wrap, log_cache_call, with_world, completion_body.
  unfold bind at 1 2 3, get at 1 2.
  destruct c.
  - destruct Hm as [Hm | Hm]; [discriminate Hm |].
    cbv beta iota. cbn [w_store w_messages]. rewrite Hm.
    unfold bind at 1 2. rewrite Eg. reflexivity.
  - cbv beta iota. unfold bind at 1. rewrite Eg. reflexivity.
Qed.

(** The caching tail changes neither the result nor any field but the store. *)
Lemma cache_tail_run (c : bool) fp n (P : M (list segment)) W :
  exists st,
  (if c then (r' <- P;; w1 <- get;; store_put fp (skipn n (w_out w1));;; ret r') else P) W
  = (fst (P W),
     mk_world (w_completion (snd (P W))) (w_completion_kwargs (snd (P W)))
       (w_cfg_reads (snd (P W))) (w_messages (snd (P W))) (w_out (snd (P W)))
       (w_fn_log (snd (P W))) (w_requests (snd (P W))) (w_closed (snd (P W)))
       (w_cache_calls (snd (P W))) st).
Proof.
  destruct c.
  - unfold bind, get, store_put, with_world, ret.
    destruct (P W) as [[a | e] [comp ckw reads ms out fl reqs cl cc st]]; eexists; reflexivity.
  - destruct (P W) as [r [comp ckw reads ms out fl reqs cl cc st]]; exists st; reflexivity.
Qed.

(** Enter a call of [get_completion] with [gc_enter] and drop its caching
    tail with [cache_tail_run]. *)
Ltac enter_call Hp Hm :=
  match goal with
  | |- context [get_completion _ _ _ _ _ _ _ _ _ _ ?role (?seg :: ?rest) ?c
                  ?model ?t ?p ?fs ?w] =>
      let reads := fresh "reads" in
      let E := fresh "E" in
      destruct (gc_enter role seg rest c model t p fs w _ _ Hp Hm) as [reads E];
      change (@cons segment seg rest) with (@cons (list event) seg rest) in E;
      rewrite E; clear E;
      match goal with
      | |- context [(if c then _ else ?P) ?W] =>
          let st := fresh "st" in
          let E2 := fresh "E" in
          destruct (cache_tail_run c (request_fingerprint digest model t p (w_messages w) fs)
                      (length (w_out w)) P W) as [st E2];
          rewrite E2; clear E2
      end
  end.

Lemma new_output_of w w' o :
  w_out w' = (w_out w ++ o)%list -> new_output w w' = o.
Proof.
  intros H; unfold new_output; rewrite H, skipn_app, skipn_all, Nat.sub_diag.
  reflexivity.
Qed.

(** C5: an interrupt raised while the stream of a call is drained is
    caught: the call's response (the request it just sent, number
    [length (w_requests w)]) is closed, the call returns normally, and what
    it yielded is exactly the fragments of the chunks received before the
    interrupt.  This holds for caching on or off and a memoized or fresh
    provider, whenever the call is not answered from the cache (so that a
    stream is drained at all) and its provider resolves. *)
Theorem interrupt_returns_partial_output role c model t p fs pre post rest w cap kw :
  fst (gpc w) = Ok (cap, kw) ->
  c = false \/
  store_lookup (request_fingerprint digest model t p (w_messages w) fs) (w_store w) = None ->
  no_tool_finish pre = true ->
  let r := gc role ((map Ev_chunk pre ++ Ev_interrupt :: post)%list :: rest)
             c model t p fs w in
  fst r = Ok rest /\
  new_output w (snd r) = chunk_fragments pre /\
  length (w_requests (snd r)) = S (length (w_requests w)) /\
  w_closed (snd r) = (w_closed w ++ [length (w_requests w)])%list.
Proof.
  intros Hp Hm Hpre r; subst r.
  enter_call Hp Hm. unfold try_kbd.
  rewrite drain_plain by exact Hpre.
  destruct w as [comp ckw reads0 ms out fl reqs cl cc st0]; simpl.
  split; [reflexivity |].
  split; [apply new_output_of; reflexivity |].
  rewrite length_app; simpl; split; [lia | reflexivity].
Qed.

(** *** One tool-call round trip *)

Lemma string_app_nil_r (x : string) : (x ++ "")%string = x.
Proof. induction x as [| c x IH]; simpl; [reflexivity | rewrite IH; reflexivity]. Qed.

Lemma string_app_assoc (x y z : string) : (x ++ (y ++ z))%string = ((x ++ y) ++ z)%string.
Proof. induction x as [| c x IH]; simpl; [reflexivity | rewrite IH; reflexivity]. Qed.

Lemma string_app_nil_l (x : string) : ("" ++ x)%string = x.
Proof. reflexivity. Qed.

Lemma concat_nil : String.concat "" [] = "".
Proof. reflexivity. Qed.

Lemma concat_cons (x : string) xs :
  String.concat "" (x :: xs) = (x ++ String.concat "" xs)%string.
Proof. destruct xs; simpl; [symmetry; apply string_app_nil_r | reflexivity]. Qed.

Lemma concat_app (xs ys : list string) :
  String.concat "" (xs ++ ys)%list = (String.concat "" xs ++ String.concat "" ys)%string.
Proof.
  induction xs as [| x xs IH]; [reflexivity |].
  rewrite <- app_comm_cons, !concat_cons, IH; apply string_app_assoc.
Qed.

Lemma chunk_fragments_app cs cs' :
  chunk_fragments (cs ++ cs')%list = (chunk_fragments cs ++ chunk_fragments cs')%list.
Proof. unfold chunk_fragments; apply flat_map_app. Qed.

(** C1 (amended): a stream that finishes with [tool_calls] once, followed
    by a stream without a tool-call finish, in a call that is not answered
    from the cache (caching off, or no stored entry for its fingerprint) and
    whose provider resolves, memoized or not.  The named function runs
    once, the assistant tool-call message and one tool message are
    appended, and the call returns normally.  The yielded text is the
    content of the chunks of the first stream before the [tool_calls] chunk
    (whose own content is never yielded), then a newline, the trace line
    [> @FunctionCall `name(args)`], the function's output block when
    [SHOW_FUNCTIONS_OUTPUT] is "true", and then the content of the second
    stream. *)
Theorem tool_call_round_trip role c model t p fs pre fin chs post chunks2 rest w cap kw
    i n args d f :
  fst (gpc w) = Ok (cap, kw) ->
  c = false \/
  store_lookup (request_fingerprint digest model t p (w_messages w) fs) (w_store w) = None ->
  no_tool_finish pre = true ->
  is_tool_calls_finish fin = true ->
  no_tool_finish chunks2 = true ->
  accumulate (acc_chunks ("", "", "") pre) (ch_tool_calls fin) = (i, n, args) ->
  json_loads args = Some d ->
  get_function n = Some f ->
  let r := gc role ((map Ev_chunk pre ++ Ev_chunk (fin :: chs) :: post)%list
                    :: map Ev_chunk chunks2 :: rest) c model t p fs w in
  fst r = Ok rest /\
  w_fn_log (snd r) = (w_fn_log w ++ [(n, d)])%list /\
  w_messages (snd r) =
    (w_messages w ++ [AssistantToolCall i n args; ToolResult (f d) i])%list /\
  String.concat "" (new_output w (snd r)) =
    (String.concat "" (chunk_fragments pre) ++ nl ++
     function_call_line n d ++
     (if String.eqb (cfg "SHOW_FUNCTIONS_OUTPUT") "true"
      then function_output_block (f d) else "") ++
     String.concat "" (chunk_fragments chunks2))%string.
Proof.
  intros Hp Hm Hpre Hfin Hpost Hacc Hj Hf r; subst r.
  enter_call Hp Hm. unfold try_kbd.
  rewrite drain_plain by exact Hpre.
  rewrite drain_finish by exact Hfin.
  rewrite Hacc; cbv beta iota zeta.
  rewrite bind_run, (hfc_ok _ _ _ d f _ Hj Hf).
  rewrite (gc_live _ _ _ _ _ _ _ _ cap) by reflexivity.
  unfold try_kbd.
  rewrite <- (app_nil_r (map Ev_chunk chunks2)), drain_plain by exact Hpost.
  destruct w as [comp ckw reads0 ms out fl reqs cl cc st0];
    cbn -[nl function_call_line function_output_block String.concat chunk_fragments new_output].
  split; [reflexivity |]; split; [reflexivity |]; split; [reflexivity |].
  erewrite new_output_of
    by (cbn -[nl function_call_line function_output_block String.concat chunk_fragments new_output];
        rewrite <- !app_assoc; reflexivity).
  destruct (String.eqb (cfg "SHOW_FUNCTIONS_OUTPUT") "true");
    rewrite ?concat_app, ?concat_cons, ?concat_nil, ?string_app_nil_l,
      ?string_app_nil_r;
    repeat rewrite <- string_app_assoc; reflexivity.
Qed.

(** *** Arguments that [json.loads] rejects *)

(** C9: when the accumulated arguments of a tool call are rejected by
    [json.loads], the [JSONDecodeError] carrying the raw argument text
    propagates out of [get_completion]; no function is invoked and no
    further provider request is made (the call sent exactly one).  This
    holds for a call with caching on or off and a memoized or fresh
    provider, whenever the call is not answered from the cache and its
    provider resolves. *)
Theorem malformed_arguments_are_fatal role c model t p fs pre fin chs post rest w cap kw
    i n args :
  fst (gpc w) = Ok (cap, kw) ->
  c = false \/
  store_lookup (request_fingerprint digest model t p (w_messages w) fs) (w_store w) = None ->
  no_tool_finish pre = true ->
  is_tool_calls_finish fin = true ->
  accumulate (acc_chunks ("", "", "") pre) (ch_tool_calls fin) = (i, n, args) ->
  json_loads args = None ->
  let r := gc role ((map Ev_chunk pre ++ Ev_chunk (fin :: chs) :: post)%list :: rest)
             c model t p fs w in
  fst r = Err (JSONDecodeError args) /\
  w_fn_log (snd r) = w_fn_log w /\
  length (w_requests (snd r)) = S (length (w_requests w)).
Proof.
  intros Hp Hm Hpre Hfin Hacc Hj r; subst r.
  enter_call Hp Hm. unfold try_kbd.
  rewrite drain_plain by exact Hpre.
  rewrite drain_finish by exact Hfin.
  rewrite Hacc; cbv beta iota zeta.
  rewrite bind_run, hfc_json_error by exact Hj.
  destruct w; cbn -[chunk_fragments]; rewrite length_app; simpl.
  split; [reflexivity |]; split; [reflexivity | lia].
Qed.

(** C10: on that error the shared message list keeps the assistant message
    recording the tool call, appended before the parse, and gets no tool
    message; again for either caching flag and a memoized or fresh
    provider. *)
Theorem failed_parse_leaves_assistant_message role c model t p fs pre fin chs post rest
    w cap kw i n args :
  fst (gpc w) = Ok (cap, kw) ->
  c = false \/
  store_lookup (request_fingerprint digest model t p (w_messages w) fs) (w_store w) = None ->
  no_tool_finish pre = true ->
  is_tool_calls_finish fin = true ->
  accumulate (acc_chunks ("", "", "") pre) (ch_tool_calls fin) = (i, n, args) ->
  json_loads args = None ->
  let r := gc role ((map Ev_chunk pre ++ Ev_chunk (fin :: chs) :: post)%list :: rest)
             c model t p fs w in
  fst r = Err (JSONDecodeError args) /\
  w_messages (snd r) = (w_messages w ++ [AssistantToolCall i n args])%list /\
  count_tool_messages (w_messages (snd r)) = count_tool_messages (w_messages w).
Proof.
  intros Hp Hm Hpre Hfin Hacc Hj r; subst r.
  enter_call Hp Hm. unfold try_kbd.
  rewrite drain_plain by exact Hpre.
  rewrite drain_finish by exact Hfin.
  rewrite Hacc; cbv beta iota zeta.
  rewrite bind_run, hfc_json_error by exact Hj.
  destruct w; cbn -[chunk_fragments count_tool_messages].
  split; [reflexivity |]; split; [reflexivity |].
  unfold count_tool_messages; rewrite filter_app, length_app; simpl; lia.
Qed.

(** *** The tool-call accumulator *)

Lemma last_default {A} (l : list A) d d' : l <> [] -> last l d = last l d'.
Proof.
  induction l as [| x l IH]; [congruence |]; intros _.
  destruct l as [| y l]; [reflexivity |].
  apply IH; discriminate.
Qed.

Lemma fold_py_or xs d :
  fold_left (fun acc x => py_or x acc) xs d = last (nonempty_values xs) d.
Proof.
  revert d; induction xs as [| [s |] xs IH]; intros d; simpl; [reflexivity | |].
  - destruct (String.eqb s "") eqn:E; [apply IH |].
    rewrite IH; destruct (nonempty_values xs) as [| s0 l]; [reflexivity |].
    transitivity (last (s0 :: l) d); [apply last_default; discriminate | reflexivity].
  - apply IH.
Qed.

Lemma fold_accumulate_one ds i0 n0 a0 :
  fold_left accumulate_one ds (i0, n0, a0) =
  (fold_left (fun acc x => py_or x acc) (map tc_id ds) i0,
   fold_left (fun acc x => py_or x acc) (map tc_name ds) n0,
   a0 ++ concat_arguments ds)%string.
Proof.
  revert i0 n0 a0; induction ds as [| d ds IH]; intros i0 n0 a0; simpl.
  - rewrite string_app_nil_r; reflexivity.
  - rewrite IH; unfold concat_arguments.
    rewrite map_cons, concat_cons, string_app_assoc; reflexivity.
Qed.

Lemma acc_chunks_deltas a cs :
  acc_chunks a cs = fold_left accumulate_one (chunk_deltas cs) a.
Proof.
  revert a; induction cs as [| [| ch chs] cs IH]; intros a; [reflexivity | apply IH |].
  unfold acc_chunks in *; simpl; rewrite IH, fold_left_app.
  destruct (ch_tool_calls ch); reflexivity.
Qed.

(** C4 (amended): the drain keeps ONE accumulator for the whole stream, not
    one per tool-call id.  When the stream finishes with [tool_calls], the
    call handed to [handle_function_call] has as id and name the last
    non-empty id and name of all deltas received, and as arguments the
    concatenation of all argument fragments in arrival order, whatever ids
    they came with.  Before that the chunks' content fragments are
    yielded. *)
Theorem tool_call_deltas_single_accumulator recur rest pre fin chs post w :
  no_tool_finish pre = true ->
  is_tool_calls_finish fin = true ->
  let ds := chunk_deltas (pre ++ [fin :: chs])%list in
  drain_ recur rest (map Ev_chunk pre ++ Ev_chunk (fin :: chs) :: post)%list
    ("", "", "") w =
  (hfc (last_nonempty (map tc_id ds)) (last_nonempty (map tc_name ds))
     (concat_arguments ds);;; recur)
    (set_out (w_out w ++ chunk_fragments pre)%list w).
Proof.
  intros Hpre Hfin ds; subst ds.
  rewrite drain_plain by exact Hpre.
  rewrite drain_finish by exact Hfin.
  replace (accumulate (acc_chunks ("", "", "") pre) (ch_tool_calls fin))
    with (acc_chunks ("", "", "") (pre ++ [fin :: chs])%list)
    by (rewrite acc_chunks_app; reflexivity).
  rewrite acc_chunks_deltas, fold_accumulate_one, !fold_py_or.
  reflexivity.
Qed.

(** X17. A streamed response none of whose chunks finishes with
    [tool_calls], in a call that is not answered from the cache (caching
    off, or no stored entry for its fingerprint) and whose provider
    resolves (memoized or not), makes one provider request with the
    conversation as it stands and the resolved capability and kwargs,
    yields the content of each chunk in order ([""] for a chunk without
    content), leaves the messages unchanged, closes nothing, and returns
    normally. *)
Theorem plain_response_streams_content role c model t p fs cs rest w cap kw :
  fst (gpc w) = Ok (cap, kw) ->
  c = false \/
  store_lookup (request_fingerprint digest model t p (w_messages w) fs) (w_store w) = None ->
  no_tool_finish cs = true ->
  let r := gc role (map Ev_chunk cs :: rest) c model t p fs w in
  fst r = Ok rest /\
  w_out (snd r) = (w_out w ++ chunk_fragments cs)%list /\
  w_messages (snd r) = w_messages w /\
  w_requests (snd r)
    = (w_requests w ++ [mk_call cap model t p (w_messages w) true
                          (build_request_kwargs kw (resolve role fs))])%list /\
  w_closed (snd r) = w_closed w.
Proof.
  intros Hp Hm Hn r; subst r.
  enter_call Hp Hm. unfold try_kbd.
  rewrite <- (app_nil_r (map Ev_chunk cs)), drain_plain by exact Hn.
  destruct w as [comp ckw reads0 ms out fl reqs cl cc st0]; cbn.
  repeat split; reflexivity.
Qed.

End Proofs.

(* ------------------------------------------------------------------ *)
(** ** The configuration of [Demo] *)

(** C1: counterexample.  One round trip of [Demo] in the default call (a
    fresh process, caching on): [f] runs once and one tool message is
    appended, but the yielded text is not the content of the two streams
    ("HiDone"): the newline and the trace line [> @FunctionCall `f()`] are
    yielded between them. *)
Lemma tool_call_output_is_not_plain_content :
  let r := Demo.gc0 "user-role" [Demo.seg1; Demo.seg2] true "gpt" 1%Z 1%Z
             Demo.tools0 Demo.w_fresh in
  w_fn_log (snd r) = [("f", [])] /\
  count_tool_messages (w_messages (snd r)) = 1 /\
  String.concat "" (new_output Demo.w_fresh (snd r))
  <> String.concat "" (chunk_fragments (Demo.pre1 ++ [Demo.fin1] :: Demo.chunks2)).
Proof.
  vm_compute; split; [reflexivity | split; [reflexivity | intros H; discriminate H]].
Qed.

(** C4: counterexample.  Deltas with the ids ["a"] and then ["b"], each with
    the arguments ["{}"]: the call dispatched for ["b"] carries ["{}{}"],
    not the fragments of ["b"] alone. *)
Lemma tool_call_ids_share_one_accumulator :
  let r := Demo.gc0 "user-role" [Demo.seg_ids] false "gpt" 1%Z 1%Z
             Demo.tools0 Demo.w_memo in
  In (AssistantToolCall "b" "f" "{}{}") (w_messages (snd r)) /\
  arguments_of_id "b" "" Demo.ids_deltas = "{}" /\
  "{}{}" <> arguments_of_id "b" "" Demo.ids_deltas.
Proof.
  vm_compute; split; [right; left; reflexivity | split; [reflexivity | discriminate]].
Qed.

Lemma tool_call_round_trip_witness :
  fst (Demo.gpc0 Demo.w_fresh) = Ok (Demo.cap0, []) /\
  store_lookup (request_fingerprint Demo.digest0 "gpt" 1%Z 1%Z
                  (w_messages Demo.w_fresh) Demo.tools0) (w_store Demo.w_fresh) = None /\
  no_tool_finish Demo.pre1 = true /\ is_tool_calls_finish Demo.fin1 = true /\
  accumulate (acc_chunks ("", "", "") Demo.pre1) (ch_tool_calls Demo.fin1)
    = ("c1", "f", "{}") /\
  Demo.json0 "{}" = Some [] /\
  let r := Demo.gc0 "user-role" [Demo.seg1; Demo.seg2] true "gpt" 1%Z 1%Z
             Demo.tools0 Demo.w_fresh in
  fst r = Ok [] /\
  w_fn_log (snd r) = (w_fn_log Demo.w_fresh ++ [("f", [])])%list /\
  w_messages (snd r) =
    (w_messages Demo.w_fresh ++
       [AssistantToolCall "c1" "f" "{}"; ToolResult "42" "c1"])%list /\
  String.concat "" (new_output Demo.w_fresh (snd r)) =
    (String.concat "" (chunk_fragments Demo.pre1) ++ nl ++
     function_call_line "f" [] ++
     (if String.eqb (Demo.cfg0 "SHOW_FUNCTIONS_OUTPUT") "true"
      then function_output_block "42" else "") ++
     String.concat "" (chunk_fragments Demo.chunks2))%string.
Proof.
  split; [reflexivity |]; split; [reflexivity |].
  split; [reflexivity |]; split; [reflexivity |]; split; [reflexivity |].
  split; [reflexivity |].
  exact (tool_call_round_trip Demo.cfg0 false Demo.py_int0 Demo.openai0 Demo.json0
           Demo.getf0 "S" "C" "D" Demo.digest0 "user-role" true "gpt" 1%Z 1%Z Demo.tools0
           Demo.pre1 Demo.fin1 [] [] Demo.chunks2 [] Demo.w_fresh Demo.cap0 []
           "c1" "f" "{}" [] (fun _ => "42")
           eq_refl (or_intror eq_refl) eq_refl eq_refl eq_refl eq_refl eq_refl eq_refl).
Defined.

Lemma reserved_roles_never_send_tools_witness :
  ("S" = "S" \/ "S" = "C" \/ "S" = "D") /\
  tool_free (w_completion_kwargs Demo.w_fresh) = true /\
  exists l,
    w_requests (snd (Demo.gc0 "S" [Demo.seg1; Demo.seg2] true "gpt" 1%Z 1%Z
                       Demo.tools0 Demo.w_fresh))
    = (w_requests Demo.w_fresh ++ l)%list /\
    Forall (fun ca => dict_get "tools" (pc_kwargs ca) = None) l.
Proof.
  split; [left; reflexivity |]; split; [reflexivity |].
  apply (reserved_roles_never_send_tools Demo.cfg0 false Demo.py_int0 Demo.openai0
           Demo.json0 Demo.getf0 "S" "C" "D" Demo.digest0); [left | ]; reflexivity.
Defined.

Lemma provider_request_tool_fields_witness :
  let ca := mk_call Demo.cap0 "gpt" 1%Z 1%Z [Msg "user" "hi"] true
              [("tool_choice", PStr "auto"); ("tools", PTools [[("name", "f")]]);
               ("parallel_tool_calls", PBool false)] in
  tool_free (w_completion_kwargs Demo.w_fresh) = true /\
  nth_error (w_requests (snd (Demo.gc0 "user-role" [Demo.seg1; Demo.seg2] true "gpt"
                                1%Z 1%Z Demo.tools0 Demo.w_fresh)))
    (length (w_requests Demo.w_fresh)) = Some ca /\
  match resolve_functions "S" "C" "D" "user-role" Demo.tools0 with
  | Some (f :: fs') =>
      dict_get "tool_choice" (pc_kwargs ca) = Some (PStr "auto") /\
      dict_get "tools" (pc_kwargs ca) = Some (PTools (f :: fs')) /\
      dict_get "parallel_tool_calls" (pc_kwargs ca) = Some (PBool false)
  | _ => tool_free (pc_kwargs ca) = true
  end.
Proof.
  intros ca; split; [reflexivity |]; split; [vm_compute; reflexivity |].
  apply (provider_request_tool_fields Demo.cfg0 false Demo.py_int0 Demo.openai0
           Demo.json0 Demo.getf0 "S" "C" "D" Demo.digest0 "user-role"
           [Demo.seg1; Demo.seg2] true "gpt" 1%Z 1%Z Demo.tools0 Demo.w_fresh ca);
    [reflexivity | vm_compute; reflexivity].
Defined.

Lemma provider_completion_memoized_witness :
  let w1 := mk_world (Some Demo.cap0) []
              ["API_BASE_URL"; "REQUEST_TIMEOUT"; "OPENAI_API_KEY"]
              [Msg "user" "hi"] [] [] [] [] [] [] in
  Demo.gpc0 Demo.w_fresh = (Ok (Demo.cap0, []), w1) /\
  w_completion w1 = Some Demo.cap0 /\ w_completion_kwargs w1 = [] /\
  (forall role script c model t p fs,
     memo_kept w1 (snd (Demo.gc0 role script c model t p fs w1))) /\
  (forall w2, memo_kept w1 w2 -> Demo.gpc0 w2 = (Ok (Demo.cap0, []), w2)).
Proof.
  intros w1; split; [reflexivity |].
  apply (provider_completion_memoized Demo.cfg0 false Demo.py_int0 Demo.openai0
           Demo.json0 Demo.getf0 "S" "C" "D" Demo.digest0 Demo.w_fresh Demo.cap0 [] w1).
  reflexivity.
Defined.

Lemma interrupt_returns_partial_output_witness :
  fst (Demo.gpc0 Demo.w_fresh) = Ok (Demo.cap0, []) /\
  store_lookup (request_fingerprint Demo.digest0 "gpt" 1%Z 1%Z
                  (w_messages Demo.w_fresh) Demo.tools0) (w_store Demo.w_fresh) = None /\
  no_tool_finish Demo.pre1 = true /\
  let r := Demo.gc0 "user-role" [Demo.seg_int] true "gpt" 1%Z 1%Z Demo.tools0
             Demo.w_fresh in
  fst r = Ok [] /\
  new_output Demo.w_fresh (snd r) = chunk_fragments Demo.pre1 /\
  length (w_requests (snd r)) = S (length (w_requests Demo.w_fresh)) /\
  w_closed (snd r) = (w_closed Demo.w_fresh ++ [length (w_requests Demo.w_fresh)])%list.
Proof.
  split; [reflexivity |]; split; [reflexivity |]; split; [reflexivity |].
  exact (interrupt_returns_partial_output Demo.cfg0 false Demo.py_int0 Demo.openai0
           Demo.json0 Demo.getf0 "S" "C" "D" Demo.digest0 "user-role" true "gpt" 1%Z 1%Z
           Demo.tools0 Demo.pre1 [] [] Demo.w_fresh Demo.cap0 []
           eq_refl (or_intror eq_refl) eq_refl).
Defined.

Lemma malformed_arguments_are_fatal_witness :
  fst (Demo.gpc0 Demo.w_fresh) = Ok (Demo.cap0, []) /\
  store_lookup (request_fingerprint Demo.digest0 "gpt" 1%Z 1%Z
                  (w_messages Demo.w_fresh) Demo.tools0) (w_store Demo.w_fresh) = None /\
  accumulate (acc_chunks ("", "", "") Demo.pre_ids) (ch_tool_calls Demo.fin_ids)
    = ("b", "f", "{}{}") /\
  Demo.json0 "{}{}" = None /\
  let r := Demo.gc0 "user-role" [Demo.seg_ids] true "gpt" 1%Z 1%Z Demo.tools0
             Demo.w_fresh in
  fst r = Err (JSONDecodeError "{}{}") /\
  w_fn_log (snd r) = w_fn_log Demo.w_fresh /\
  length (w_requests (snd r)) = S (length (w_requests Demo.w_fresh)).
Proof.
  split; [reflexivity |]; split; [reflexivity |].
  split; [reflexivity |]; split; [reflexivity |].
  exact (malformed_arguments_are_fatal Demo.cfg0 false Demo.py_int0 Demo.openai0
           Demo.json0 Demo.getf0 "S" "C" "D" Demo.digest0 "user-role" true "gpt" 1%Z 1%Z
           Demo.tools0 Demo.pre_ids Demo.fin_ids [] [] [] Demo.w_fresh Demo.cap0 []
           "b" "f" "{}{}" eq_refl (or_intror eq_refl) eq_refl eq_refl eq_refl eq_refl).
Defined.

Lemma failed_parse_leaves_assistant_message_witness :
  fst (Demo.gpc0 Demo.w_fresh) = Ok (Demo.cap0, []) /\
  store_lookup (request_fingerprint Demo.digest0 "gpt" 1%Z 1%Z
                  (w_messages Demo.w_fresh) Demo.tools0) (w_store Demo.w_fresh) = None /\
  accumulate (acc_chunks ("", "", "") Demo.pre_ids) (ch_tool_calls Demo.fin_ids)
    = ("b", "f", "{}{}") /\
  Demo.json0 "{}{}" = None /\
  let r := Demo.gc0 "user-role" [Demo.seg_ids] true "gpt" 1%Z 1%Z Demo.tools0
             Demo.w_fresh in
  fst r = Err (JSONDecodeError "{}{}") /\
  w_messages (snd r) = (w_messages Demo.w_fresh ++ [AssistantToolCall "b" "f" "{}{}"])%list /\
  count_tool_messages (w_messages (snd r)) = count_tool_messages (w_messages Demo.w_fresh).
Proof.
  split; [reflexivity |]; split; [reflexivity |].
  split; [reflexivity |]; split; [reflexivity |].
  exact (failed_parse_leaves_assistant_message Demo.cfg0 false Demo.py_int0 Demo.openai0
           Demo.json0 Demo.getf0 "S" "C" "D" Demo.digest0 "user-role" true "gpt" 1%Z 1%Z
           Demo.tools0 Demo.pre_ids Demo.fin_ids [] [] [] Demo.w_fresh Demo.cap0 []
           "b" "f" "{}{}" eq_refl (or_intror eq_refl) eq_refl eq_refl eq_refl eq_refl).
Defined.

Lemma tool_call_deltas_single_accumulator_witness :
  no_tool_finish Demo.pre_ids = true /\ is_tool_calls_finish Demo.fin_ids = true /\
  let ds := chunk_deltas (Demo.pre_ids ++ [[Demo.fin_ids]])%list in
  Demo.drain0 (ret []) [] (map Ev_chunk Demo.pre_ids ++ Ev_chunk [Demo.fin_ids] :: [])%list
    ("", "", "") Demo.w_memo =
  (handle_function_call Demo.cfg0 Demo.json0 Demo.getf0
     (last_nonempty (map tc_id ds)) (last_nonempty (map tc_name ds))
     (concat_arguments ds);;; ret [])
    (set_out (w_out Demo.w_memo ++ chunk_fragments Demo.pre_ids)%list Demo.w_memo).
Proof.
  split; [reflexivity |]; split; [reflexivity |].
  exact (tool_call_deltas_single_accumulator Demo.cfg0 Demo.json0 Demo.getf0 (ret [])
           [] Demo.pre_ids Demo.fin_ids [] [] Demo.w_memo eq_refl eq_refl).
Defined.

(* ------------------------------------------------------------------ *)
(** ** Proofs about the command-line helpers *)

Lemma shlex_safe_chars (c : ascii) :
  shlex_safe c = true ->
  Ascii.eqb c (ascii_of_nat 39) = false /\ Ascii.eqb c (ascii_of_nat 34) = false /\
  sh_blank c = false /\ sh_special c = false.
Proof.
  destruct c as [b0 b1 b2 b3 b4 b5 b6 b7];
    destruct b0, b1, b2, b3, b4, b5, b6, b7; vm_compute; intros H;
    first [discriminate H | repeat split].
Qed.

Lemma sh_lex_safe (s : string) : forall b cur rest,
  forallb shlex_safe (list_ascii_of_string s) = true ->
  sh_lex Sh_unquoted b cur (s ++ rest)
  = sh_lex Sh_unquoted (b || negb (String.eqb s EmptyString)) (cur ++ s) rest.
Proof.
  induction s as [| c s IH]; intros b cur rest Hs.
  - simpl. rewrite orb_false_r, string_app_nil_r. reflexivity.
  - simpl in Hs. apply andb_prop in Hs as [Hc Hs].
    destruct (shlex_safe_chars c Hc) as (H1 & H2 & H3 & H4).
    simpl. rewrite H1, H2, H3, H4, IH by exact Hs.
    rewrite <- string_app_assoc. simpl. rewrite orb_true_r. reflexivity.
Qed.

Lemma sh_lex_quote_escape cur x :
  sh_lex Sh_single true cur ((sq ++ dq ++ sq ++ dq ++ sq) ++ x)
  = sh_lex Sh_single true (cur ++ sq) x.
Proof. reflexivity. Qed.

Lemma py_replace_quote r s :
  py_replace_char (ascii_of_nat 39) r (String (ascii_of_nat 39) s)
  = r ++ py_replace_char (ascii_of_nat 39) r s.
Proof. reflexivity. Qed.

Lemma sh_lex_single_replace (s : string) : forall cur rest,
  sh_lex Sh_single true cur
    (py_replace_char (ascii_of_nat 39) (sq ++ dq ++ sq ++ dq ++ sq) s ++ sq ++ rest)
  = sh_lex Sh_unquoted true (cur ++ s) rest.
Proof.
  induction s as [| c s IH]; intros cur rest.
  - simpl. rewrite string_app_nil_r. reflexivity.
  - destruct (Ascii.eqb c (ascii_of_nat 39)) eqn:Hq.
    + apply Ascii.eqb_eq in Hq. subst c.
      rewrite py_replace_quote, <- string_app_assoc.
      rewrite sh_lex_quote_escape, IH, <- string_app_assoc. reflexivity.
    + cbn [py_replace_char]. rewrite Hq. cbn [append sh_lex]. rewrite Hq, IH, <- string_app_assoc.
      reflexivity.
Qed.

Lemma sh_lex_quote (s : string) : forall b cur rest,
  sh_lex Sh_unquoted b cur (shlex_quote s ++ rest) = sh_lex Sh_unquoted true (cur ++ s) rest.
Proof.
  intros b cur rest. unfold shlex_quote.
  destruct s as [| c0 s0] eqn:Es.
  - simpl. rewrite string_app_nil_r. reflexivity.
  - rewrite <- Es.
    destruct (forallb shlex_safe (list_ascii_of_string s)) eqn:Hsafe.
    + rewrite sh_lex_safe by exact Hsafe. subst s. cbn [String.eqb negb].
      rewrite orb_true_r. reflexivity.
    + rewrite <- !string_app_assoc. simpl.
      apply sh_lex_single_replace.
Qed.

Lemma sh_lex_dash_c cur x :
  sh_lex Sh_unquoted true cur (" -c " ++ x)
  = option_map (cons cur) (option_map (cons "-c") (sh_lex Sh_unquoted false "" x)).
Proof. reflexivity. Qed.

Lemma has_nul_cons c s : has_nul (String c s) = Ascii.eqb c (ascii_of_nat 0) || has_nul s.
Proof. reflexivity. Qed.

Lemma has_nul_app a b : has_nul (a ++ b) = has_nul a || has_nul b.
Proof.
  induction a as [| c a IH]; [reflexivity |].
  cbn [append]. rewrite !has_nul_cons, IH. apply orb_assoc.
Qed.

Lemma has_nul_safe s : forallb shlex_safe (list_ascii_of_string s) = true -> has_nul s = false.
Proof.
  induction s as [| c s IH]; [reflexivity |].
  cbn [list_ascii_of_string forallb]. intros H. apply andb_prop in H as [Hc Hs].
  rewrite has_nul_cons, (IH Hs), orb_false_r.
  destruct (Ascii.eqb c (ascii_of_nat 0)) eqn:E; [| reflexivity].
  apply Ascii.eqb_eq in E; subst c. vm_compute in Hc. discriminate Hc.
Qed.

Lemma has_nul_replace old new s :
  Ascii.eqb old (ascii_of_nat 0) = false -> has_nul new = false ->
  has_nul (py_replace_char old new s) = has_nul s.
Proof.
  intros Ho Hn; induction s as [| c s IH]; [reflexivity |].
  cbn [py_replace_char]. destruct (Ascii.eqb c old) eqn:E.
  - apply Ascii.eqb_eq in E; subst c. rewrite has_nul_app, Hn, IH, has_nul_cons, Ho.
    reflexivity.
  - rewrite !has_nul_cons, IH. reflexivity.
Qed.

Lemma has_nul_shlex_quote s : has_nul (shlex_quote s) = has_nul s.
Proof.
  destruct s as [| c s']; [reflexivity |].
  unfold shlex_quote. destruct (forallb _ _); [reflexivity |].
  rewrite !has_nul_app, has_nul_replace by reflexivity.
  change (has_nul sq) with false. cbn [orb]. apply orb_false_r.
Qed.

Lemma has_nul_wrap pre c :
  has_nul pre = false -> has_nul (pre ++ dq ++ c ++ dq) = has_nul c.
Proof.
  intros H. rewrite !has_nul_app, H. change (has_nul dq) with false.
  cbn [orb]. apply orb_false_r.
Qed.

(** X1. On POSIX systems, when [$SHELL] (default [/bin/sh]) is a
    non-empty path of characters [shlex.quote] leaves alone, [run_command]
    of a command without a NUL character runs one [os.system] line that a
    POSIX shell splits into exactly the words [$SHELL], [-c] and the
    command, whatever other characters the command holds; a command with a
    NUL character makes [os.system] raise [ValueError] and nothing runs. *)
Theorem run_command_posix_words platform_system environ system_effect command shell st :
  String.eqb platform_system "Windows" = false ->
  env_get environ "SHELL" "/bin/sh" = shell ->
  shell <> EmptyString ->
  forallb shlex_safe (list_ascii_of_string shell) = true ->
  if has_nul command then
    run_command platform_system environ system_effect command st
    = (CErr (CliValueError "embedded null byte"), st)
  else
  exists line,
    run_command platform_system environ system_effect command st
    = (COk tt, mk_sys (s_echo st) (s_runs st) (s_system st ++ [line])
                      (system_effect line (s_files st)) (s_actions st)) /\
    sh_words line = Some [shell; "-c"; command].
Proof.
  intros Hp Hsh Hne Hsafe. unfold run_command, full_command, os_system. rewrite Hp, Hsh.
  rewrite has_nul_app, (has_nul_safe shell Hsafe), has_nul_app, has_nul_shlex_quote.
  change (has_nul " -c ") with false. cbn [orb].
  destruct (has_nul command); [reflexivity |].
  eexists; split; [reflexivity |].
  unfold sh_words. rewrite sh_lex_safe by exact Hsafe.
  destruct (String.eqb shell EmptyString) eqn:E.
  - apply String.eqb_eq in E. contradiction.
  - cbn [orb negb]. rewrite sh_lex_dash_c, <- (string_app_nil_r (shlex_quote command)).
    rewrite sh_lex_quote. reflexivity.
Qed.

Lemma py_split_length (c : ascii) (s : string) :
  length (py_split c s) = S (count_occ ascii_dec (list_ascii_of_string s) c).
Proof.
  induction s as [| c' s IH]; [reflexivity |].
  cbn [py_split list_ascii_of_string count_occ].
  destruct (Ascii.eqb c' c) eqn:E.
  - apply Ascii.eqb_eq in E. subst c'.
    destruct (ascii_dec c c) as [_ | n]; [| contradiction].
    cbn [length]. rewrite IH. reflexivity.
  - destruct (ascii_dec c' c) as [e | _].
    + subst c'. rewrite Ascii.eqb_refl in E. discriminate.
    + destruct (py_split c s) as [| w ws]; cbn [length] in *; [discriminate | exact IH].
Qed.

(** X2. On Windows [run_command] wraps the command, unescaped, in double
    quotes after [powershell.exe -Command] when [PSModulePath] holds at
    least two [;] separators, and after [cmd.exe /c] otherwise (in
    particular when [PSModulePath] is unset), and runs that line; a command
    with a NUL character makes [os.system] raise [ValueError] instead and
    nothing runs. *)
Theorem run_command_windows platform_system environ system_effect command ps st :
  platform_system = "Windows" ->
  env_get environ "PSModulePath" EmptyString = ps ->
  let line := if Nat.leb 2 (count_occ ascii_dec (list_ascii_of_string ps) ";"%char)
              then "powershell.exe -Command " ++ dq ++ command ++ dq
              else "cmd.exe /c " ++ dq ++ command ++ dq in
  run_command platform_system environ system_effect command st
  = if has_nul command then (CErr (CliValueError "embedded null byte"), st)
    else (COk tt, mk_sys (s_echo st) (s_runs st) (s_system st ++ [line])
                         (system_effect line (s_files st)) (s_actions st)).
Proof.
  intros Hp Hps line. subst platform_system. unfold run_command, full_command, os_system, line.
  rewrite Hps, py_split_length, String.eqb_refl.
  change (Nat.leb 3 (S ?n)) with (Nat.leb 2 n).
  destruct (Nat.leb 2 _); rewrite has_nul_wrap by reflexivity; reflexivity.
Qed.

(** X3. For a valid target on a POSIX system with a local config folder,
    [replicate_to_host] runs [ssh] bootstrap, [scp] of the config folder and
    [ssh] verification on the stripped target, each only after the previous
    one succeeded; it returns normally when all three succeed, and otherwise
    raises a [UsageError] naming the missing executable ([unknown] when the
    error has no file name) or the failed command line, joined by spaces. *)
Theorem replicate_runs_until_failure platform_system subprocess_outcome
    SHELL_GPT_CONFIG_FOLDER target st :
  String.eqb platform_system "Windows" = false ->
  let t := py_strip target in
  t <> EmptyString ->
  String.prefix "-" t = false ->
  existsb py_isspace (list_ascii_of_string t) = false ->
  let cmds := [["ssh"; t; "sh"; "-lc"; REMOTE_BOOTSTRAP_COMMAND];
               ["scp"; "-r"; SHELL_GPT_CONFIG_FOLDER; t ++ ":~/.config/"];
               ["ssh"; t; "sh"; "-lc"; REMOTE_VERIFY_COMMAND]] in
  let r := replicate_to_host platform_system subprocess_outcome
             SHELL_GPT_CONFIG_FOLDER true target st in
  s_runs (snd r) = (s_runs st ++ fst (run_until_failure subprocess_outcome cmds))%list /\
  fst r = match snd (run_until_failure subprocess_outcome cmds) with
          | None => COk tt
          | Some (_, Run_not_found f) =>
              CErr (UsageError ("Required command not found: " ++ py_or f "unknown"))
          | Some (c, _) =>
              CErr (UsageError ("Remote replication failed while running: "
                                ++ String.concat " " c))
          end.
Proof.
  intros Hp t Hne Hpre Hsp cmds r. unfold r, replicate_to_host. rewrite Hp.
  cbv zeta. change (py_strip target) with t.
  destruct (String.eqb t EmptyString) eqn:E; [apply String.eqb_eq in E; contradiction |].
  rewrite Hpre, Hsp. cbn [negb]. clearbody t. unfold cmds. clear cmds r.
  unfold replicate_steps.
  destruct (subprocess_outcome ["ssh"; t; "sh"; "-lc"; REMOTE_BOOTSTRAP_COMMAND]) eqn:E1;
  [ destruct (subprocess_outcome ["scp"; "-r"; SHELL_GPT_CONFIG_FOLDER; t ++ ":~/.config/"])
      eqn:E2;
    [ destruct (subprocess_outcome ["ssh"; t; "sh"; "-lc"; REMOTE_VERIFY_COMMAND]) eqn:E3
    | | ]
  | | ];
  cbn [run_until_failure]; rewrite ?E1, ?E2, ?E3;
  unfold cbind, ccatch, echo, subprocess_run; cbn [fst snd s_runs];
  rewrite ?E1, ?E2, ?E3; cbn [fst snd s_runs]; rewrite <- ?app_assoc; split; reflexivity.
Qed.

(** X4. [replicate_to_host] raises a [UsageError] and changes nothing (no
    message, no process, no file) on Windows, when the stripped target is
    empty, starts with [-] or contains whitespace, or when the local config
    folder is missing. *)
Theorem replicate_rejects_invalid platform_system subprocess_outcome
    SHELL_GPT_CONFIG_FOLDER config_folder_exists target st :
  String.eqb platform_system "Windows" = true \/ py_strip target = EmptyString \/
  String.prefix "-" (py_strip target) = true \/
  existsb py_isspace (list_ascii_of_string (py_strip target)) = true \/
  config_folder_exists = false ->
  exists msg,
    replicate_to_host platform_system subprocess_outcome SHELL_GPT_CONFIG_FOLDER
      config_folder_exists target st = (CErr (UsageError msg), st).
Proof.
  intros H. unfold replicate_to_host.
  destruct (String.eqb platform_system "Windows") eqn:E0; [eexists; reflexivity |].
  cbv zeta.
  destruct (String.eqb (py_strip target) EmptyString) eqn:E1; [eexists; reflexivity |].
  destruct (String.prefix "-" (py_strip target)) eqn:E2; [eexists; reflexivity |].
  destruct (existsb py_isspace (list_ascii_of_string (py_strip target))) eqn:E3;
    [eexists; reflexivity |].
  destruct config_folder_exists; [| eexists; reflexivity].
  exfalso. destruct H as [H | [H | [H | [H | H]]]]; try discriminate H.
  rewrite H in E1. discriminate E1.
Qed.

Lemma fs_lookup_write_eq p v fs : fs_lookup p (fs_write p v fs) = Some v.
Proof. unfold fs_lookup, fs_write. cbn. rewrite String.eqb_refl. reflexivity. Qed.

Lemma fs_lookup_remove q p fs :
  fs_lookup q (fs_remove p fs) = if String.eqb q p then None else fs_lookup q fs.
Proof.
  unfold fs_lookup, fs_remove. induction fs as [| [k v] fs IH]; cbn.
  - destruct (String.eqb q p); reflexivity.
  - destruct (String.eqb k p) eqn:Ekp; cbn.
    + apply String.eqb_eq in Ekp. subst k. rewrite IH.
      destruct (String.eqb q p) eqn:Eqp; [reflexivity |].
      rewrite String.eqb_sym, Eqp. reflexivity.
    + destruct (String.eqb k q) eqn:Ekq; [| exact IH].
      apply String.eqb_eq in Ekq. subst k. rewrite Ekp. reflexivity.
Qed.

Lemma fs_lookup_write_neq q p v fs :
  q <> p -> fs_lookup q (fs_write p v fs) = fs_lookup q fs.
Proof.
  intros Hne. unfold fs_write.
  transitivity (fs_lookup q (fs_remove p fs)).
  - unfold fs_lookup. cbn.
    destruct (String.eqb p q) eqn:E; [apply String.eqb_eq in E; congruence | reflexivity].
  - rewrite fs_lookup_remove. apply String.eqb_neq in Hne. rewrite Hne. reflexivity.
Qed.

Lemma install_run environ home zsh_integration bash_integration st :
  let shell := env_get environ "SHELL" EmptyString in
  py_contains "zsh" shell = true \/ py_contains "bash" shell = true ->
  let rc := if py_contains "zsh" shell then home ++ "/.zshrc" else home ++ "/.bashrc" in
  let text := if py_contains "zsh" shell then zsh_integration else bash_integration in
  let msg := if py_contains "zsh" shell then "Installing ZSH integration..."
             else "Installing Bash integration..." in
  install_shell_integration environ home zsh_integration bash_integration true st
  = (CErr TyperExit,
     mk_sys (s_echo st ++ [msg; "Done! Restart your shell to apply changes."])
       (s_runs st) (s_system st)
       (fs_write rc (match fs_lookup rc (s_files st) with Some v => v | None => EmptyString end
                     ++ text) (s_files st))
       (s_actions st)).
Proof.
  intros shell H rc text msg.
  unfold install_shell_integration, option_callback, install_shell_integration_body.
  cbn [negb]. fold shell. subst rc text msg.
  destruct (py_contains "zsh" shell); [| destruct (py_contains "bash" shell);
    [| destruct H as [H | H]; discriminate H]];
  unfold cbind, echo, append_file, get_files, set_files; cbn;
  rewrite <- app_assoc; reflexivity.
Qed.

(** X5. With the flag set and [$SHELL] naming zsh or bash (zsh checked
    first), [install_shell_integration] appends the integration script to
    the end of [~/.zshrc] or [~/.bashrc] (creating it if missing), leaves
    every other file as it was, prints two lines and ends with
    [typer.Exit]. *)
Theorem install_shell_integration_appends environ home zsh_integration bash_integration st :
  let shell := env_get environ "SHELL" EmptyString in
  py_contains "zsh" shell = true \/ py_contains "bash" shell = true ->
  let rc := if py_contains "zsh" shell then home ++ "/.zshrc" else home ++ "/.bashrc" in
  let text := if py_contains "zsh" shell then zsh_integration else bash_integration in
  let r := install_shell_integration environ home zsh_integration bash_integration true st in
  fst r = CErr TyperExit /\
  fs_lookup rc (s_files (snd r))
    = Some (match fs_lookup rc (s_files st) with Some v => v | None => EmptyString end
            ++ text) /\
  (forall p, p <> rc -> fs_lookup p (s_files (snd r)) = fs_lookup p (s_files st)) /\
  length (s_echo (snd r)) = length (s_echo st) + 2.
Proof.
  intros shell H rc text r. unfold r.
  rewrite (install_run environ home zsh_integration bash_integration st H).
  cbn [fst snd s_files s_echo]. fold shell rc text.
  split; [reflexivity |]. split; [apply fs_lookup_write_eq |]. split.
  - intros p Hp. apply fs_lookup_write_neq, Hp.
  - rewrite length_app. reflexivity.
Qed.

(** X6. Installing the integration twice appends the script twice: nothing
    checks for an earlier installation. *)
Theorem install_shell_integration_twice environ home zsh_integration bash_integration st :
  let shell := env_get environ "SHELL" EmptyString in
  py_contains "zsh" shell = true \/ py_contains "bash" shell = true ->
  let rc := if py_contains "zsh" shell then home ++ "/.zshrc" else home ++ "/.bashrc" in
  let text := if py_contains "zsh" shell then zsh_integration else bash_integration in
  let st1 := snd (install_shell_integration environ home zsh_integration bash_integration
                    true st) in
  let st2 := snd (install_shell_integration environ home zsh_integration bash_integration
                    true st1) in
  fs_lookup rc (s_files st2)
  = Some (match fs_lookup rc (s_files st) with Some v => v | None => EmptyString end
          ++ text ++ text).
Proof.
  intros shell H rc text st1 st2. unfold st2, st1.
  rewrite (install_run environ home zsh_integration bash_integration st H).
  cbn [snd]. rewrite (install_run environ home zsh_integration bash_integration _ H).
  cbn [snd s_files]. fold shell rc text. rewrite !fs_lookup_write_eq, string_app_assoc.
  reflexivity.
Qed.

(** X7. [install_shell_integration] does nothing when the flag is off, and
    when [$SHELL] names neither zsh nor bash it raises a [UsageError]
    instead of [typer.Exit], having printed and written nothing. *)
Theorem install_shell_integration_noop environ home zsh_integration bash_integration st :
  install_shell_integration environ home zsh_integration bash_integration false st
    = (COk tt, st) /\
  (py_contains "zsh" (env_get environ "SHELL" EmptyString) = false ->
   py_contains "bash" (env_get environ "SHELL" EmptyString) = false ->
   install_shell_integration environ home zsh_integration bash_integration true st
   = (CErr (UsageError "ShellGPT integrations only available for ZSH and Bash."), st)).
Proof.
  split; [reflexivity |]. intros Hz Hb.
  unfold install_shell_integration, option_callback, install_shell_integration_body.
  cbn [negb]. rewrite Hz, Hb. reflexivity.
Qed.

(** X8. [get_edited_prompt] runs [$EDITOR] (default [vim]) on the new
    temporary file. If the editor left the file, the file is deleted, no
    other file changes, and the result is its text, or [BadParameter] when
    the text is empty; if the editor removed the file, reading it raises
    [FileNotFoundError].  When the command line holds a NUL character
    [os.system] raises [ValueError], nothing runs, and the empty temporary
    file is left behind. *)
Theorem get_edited_prompt_result environ system_effect tmp_path st :
  let cmd := env_get environ "EDITOR" "vim" ++ " " ++ tmp_path in
  let fs1 := system_effect cmd (fs_write tmp_path EmptyString (s_files st)) in
  let r := get_edited_prompt environ system_effect tmp_path st in
  if has_nul cmd then
    r = (CErr (CliValueError "embedded null byte"),
         mk_sys (s_echo st) (s_runs st) (s_system st)
           (fs_write tmp_path EmptyString (s_files st)) (s_actions st))
  else
  s_system (snd r) = (s_system st ++ [cmd])%list /\
  match fs_lookup tmp_path fs1 with
  | None => fst r = CErr (FileNotFoundError (Some tmp_path)) /\ s_files (snd r) = fs1
  | Some out =>
      fs_lookup tmp_path (s_files (snd r)) = None /\
      (forall p, p <> tmp_path -> fs_lookup p (s_files (snd r)) = fs_lookup p fs1) /\
      fst r = (if String.eqb out EmptyString
               then CErr (BadParameter "Couldn't get valid PROMPT from $EDITOR")
               else COk out)
  end.
Proof.
  intros cmd fs1 r. unfold r, get_edited_prompt.
  unfold cbind, get_files, set_files, os_system, read_file, os_remove. cbn -[append fs_remove].
  fold cmd. destruct (has_nul cmd); [reflexivity |]. cbn -[append fs_remove]. fold fs1.
  destruct (fs_lookup tmp_path fs1) as [out |] eqn:E; cbn -[append fs_remove].
  - rewrite E. cbn -[append fs_remove].
    destruct (String.eqb out EmptyString); cbn -[append fs_remove];
      (split; [reflexivity |]);
      (split;
       [ rewrite fs_lookup_remove, String.eqb_refl; reflexivity
       | split; [| reflexivity]; intros p Hp; rewrite fs_lookup_remove;
         apply String.eqb_neq in Hp; rewrite Hp; reflexivity ]).
  - cbn -[append fs_remove]. split; [reflexivity | split; reflexivity].
Qed.

(** *** The state transformers of [main] *)

#[local] Instance actions_grow_preorder P : PreOrder (actions_grow P).
Proof.
  split.
  - intros st. exists []. rewrite app_nil_r. split; [reflexivity | constructor].
  - intros st1 st2 st3 [e1 [H1 F1]] [e2 [H2 F2]]. exists (e1 ++ e2)%list.
    rewrite H2, H1, app_assoc. split; [reflexivity | apply Forall_app; split; assumption].
Qed.

Section Preserves.

Context (R : sys -> sys -> Prop) `{PreOrder sys R}.

Lemma sp_ret {A} (a : A) : sys_preserves R (cret a).
Proof. intros st. reflexivity. Qed.

Lemma sp_raise {A} e : sys_preserves R (@craise A e).
Proof. intros st. reflexivity. Qed.

Lemma sp_clift {A} (x : cres A) : sys_preserves R (clift x).
Proof. intros st. reflexivity. Qed.

Lemma sp_bind {A B} (m : CM A) (k : A -> CM B) :
  sys_preserves R m -> (forall a, sys_preserves R (k a)) -> sys_preserves R (cbind m k).
Proof.
  intros Hm Hk st. unfold cbind. specialize (Hm st).
  destruct (m st) as [[a | e] st'] eqn:E; cbn in *; [| exact Hm].
  etransitivity; [exact Hm | apply Hk].
Qed.

End Preserves.

Ltac sp_steps :=
  repeat match goal with
  | |- sys_preserves _ (cbind _ _) => apply sp_bind; [exact _ | | intro]
  | |- sys_preserves _ (cret _) => apply sp_ret; exact _
  | |- sys_preserves _ (craise _) => apply sp_raise; exact _
  | |- sys_preserves _ (clift _) => apply sp_clift; exact _
  | |- sys_preserves _ (if ?b then _ else _) => destruct b
  | |- sys_preserves _ (match ?x with _ => _ end) => destruct x
  end.

Lemma ag_effect {A} P (m : CM A) :
  (forall st, s_actions (snd (m st)) = s_actions st) -> sys_preserves (actions_grow P) m.
Proof.
  intros Hm st. exists []. rewrite Hm, app_nil_r. split; [reflexivity | constructor].
Qed.

Lemma ag_log (P : action -> Prop) a : P a -> sys_preserves (actions_grow P) (log_action a).
Proof. intros Ha st. exists [a]. split; [reflexivity | constructor; [exact Ha | constructor]]. Qed.

Lemma ag_run_command P platform_system environ system_effect c :
  sys_preserves (actions_grow P) (run_command platform_system environ system_effect c).
Proof.
  apply ag_effect. intros st. unfold run_command, os_system.
  destruct (has_nul _); reflexivity.
Qed.

Lemma ag_get_edited_prompt P environ system_effect tmp_path :
  sys_preserves (actions_grow P) (get_edited_prompt environ system_effect tmp_path).
Proof.
  apply ag_effect. intros st.
  unfold get_edited_prompt, cbind, get_files, set_files, os_system, read_file, os_remove. cbn.
  destruct (has_nul _); cbn; [reflexivity |].
  destruct (fs_lookup _ _); cbn; [| reflexivity].
  destruct (fs_lookup _ _); cbn; [| reflexivity].
  destruct (String.eqb _ _); reflexivity.
Qed.

Lemma ag_shell_loop (P : action -> Prop) platform_system environ system_effect handle
    describe default answers edits full :
  (forall v, P (Act_invalid_choice v)) ->
  (forall c, P (Act_handle (describe c))) ->
  sys_preserves (actions_grow P)
    (shell_loop platform_system environ system_effect handle describe default
       answers edits full).
Proof.
  intros Hinv Hd. revert edits full.
  induction answers as [| ans rest IH]; intros edits full; cbn [shell_loop].
  - apply sp_raise. exact _.
  - destruct (click_choice _) as [option |].
    + destruct (String.eqb option "e" || String.eqb option "y");
        [apply ag_run_command |].
      destruct (String.eqb option "m");
        [destruct edits; [apply sp_raise; exact _ | apply IH] |].
      destruct (String.eqb option "d"); [| apply sp_ret; exact _].
      unfold run_handler. sp_steps; [apply ag_log, Hd | apply IH].
    + sp_steps; [apply ag_log, Hinv | apply IH].
Qed.

Lemma In_actions_grow (P : action -> Prop) st st' x :
  actions_grow P st st' -> In x (s_actions st') -> In x (s_actions st) \/ P x.
Proof.
  intros [extra [E F]] Hin. rewrite E in Hin. apply in_app_or in Hin as [Hin | Hin].
  - left. exact Hin.
  - right. rewrite Forall_forall in F. apply F, Hin.
Qed.

(** X9. Every handler call [main] makes (the REPL, chat or default handler,
    and the description of a shell command) passes the model named by
    [--model], or [DEFAULT_MODEL] when none is given, the given temperature,
    top-p and cache flag, and the markdown setting; its function schemas
    are [None] or the non-empty list of installed schemas, the latter only
    when functions are enabled. *)
Theorem main_handler_call_options platform_system environ system_effect tmp_path
    stdin_isatty stdin_lines cfg check_get system_role_get get_openai_schemas handle
    SHELL CODE DESCRIBE_SHELL tty_answers tty_edits a st hc :
  let r := main platform_system environ system_effect tmp_path stdin_isatty stdin_lines
             cfg check_get system_role_get get_openai_schemas handle SHELL CODE
             DESCRIBE_SHELL tty_answers tty_edits a st in
  In (Act_handle hc) (s_actions (snd r)) ->
  In (Act_handle hc) (s_actions st) \/
  (hc_model hc = (if str_truthy (a_model a) then a_model a else cfg "DEFAULT_MODEL") /\
   hc_temperature hc = a_temperature a /\ hc_top_p hc = a_top_p a /\
   hc_caching hc = a_cache a /\
   hc_markdown hc = match a_md a with Some b => b | None => cfg_true cfg "PRETTIFY_MARKDOWN" end /\
   (hc_functions hc = None \/
    (hc_functions hc = Some get_openai_schemas /\ get_openai_schemas <> [] /\
     match a_functions a with Some b => b | None => cfg_true cfg "OPENAI_USE_FUNCTIONS" end
     = true))).
Proof.
  intros r Hin.
  refine (In_actions_grow
            (fun x => match x with
                      | Act_handle hc =>
                          hc_model hc = (if str_truthy (a_model a) then a_model a
                                         else cfg "DEFAULT_MODEL") /\
                          hc_temperature hc = a_temperature a /\ hc_top_p hc = a_top_p a /\
                          hc_caching hc = a_cache a /\
                          hc_markdown hc = match a_md a with
                                           | Some b => b
                                           | None => cfg_true cfg "PRETTIFY_MARKDOWN" end /\
                          (hc_functions hc = None \/
                           (hc_functions hc = Some get_openai_schemas /\
                            get_openai_schemas <> [] /\
                            match a_functions a with
                            | Some b => b
                            | None => cfg_true cfg "OPENAI_USE_FUNCTIONS" end = true))
                      | _ => True
                      end) _ _ _ _ Hin).
  unfold r. clear r Hin. revert st.
  refine (_ : sys_preserves _ (main platform_system environ system_effect tmp_path
                stdin_isatty stdin_lines cfg check_get system_role_get get_openai_schemas
                handle SHELL CODE DESCRIBE_SHELL tty_answers tty_edits a)).
  unfold main. cbv zeta.
  assert (Hfn : forall role_class,
    let fs := if match a_functions a with
                 | Some b => b
                 | None => cfg_true cfg "OPENAI_USE_FUNCTIONS" end &&
                 negb (is_reserved_role SHELL CODE DESCRIBE_SHELL role_class)
              then match get_openai_schemas with [] => None | fs => Some fs end
              else None in
    fs = None \/
    (fs = Some get_openai_schemas /\ get_openai_schemas <> [] /\
     match a_functions a with Some b => b | None => cfg_true cfg "OPENAI_USE_FUNCTIONS" end
     = true)).
  { intros role_class fs. unfold fs.
    destruct (match a_functions a with
              | Some b => b | None => cfg_true cfg "OPENAI_USE_FUNCTIONS" end);
      cbn [andb]; [| left; reflexivity].
    destruct (negb _); [| left; reflexivity].
    destruct get_openai_schemas as [| f fs']; [left; reflexivity |].
    right. split; [reflexivity | split; [discriminate | reflexivity]]. }
  sp_steps;
  repeat first
    [ apply ag_log; exact I
    | apply ag_get_edited_prompt
    | apply ag_shell_loop; [intros; exact I | intros c; cbn;
                             repeat split; apply Hfn]
    | unfold run_handler; sp_steps; apply ag_log; cbn; repeat split; apply Hfn ].
Qed.

(** X10. [main] rejects [--shell], [--describe-shell] and [--code] used
    together, [--chat] with [--repl], and [--editor] with piped stdin by a
    [UsageError] before calling any handler, opening the editor or running
    anything; the only action that may precede the error is the display of
    [--show-chat]. *)
Theorem main_rejects_conflicting_options platform_system environ system_effect tmp_path
    stdin_isatty stdin_lines cfg check_get system_role_get get_openai_schemas handle
    SHELL CODE DESCRIBE_SHELL tty_answers tty_edits a st :
  Nat.ltb 1 (Nat.b2n (a_shell a) + Nat.b2n (a_describe_shell a) + Nat.b2n (a_code a))
    = true \/
  str_truthy (a_chat a) && str_truthy (a_repl a) = true \/
  a_editor a && negb stdin_isatty = true ->
  let r := main platform_system environ system_effect tmp_path stdin_isatty stdin_lines
             cfg check_get system_role_get get_openai_schemas handle SHELL CODE
             DESCRIBE_SHELL tty_answers tty_edits a st in
  (exists msg, fst r = CErr (UsageError msg)) /\
  s_echo (snd r) = s_echo st /\ s_runs (snd r) = s_runs st /\
  s_system (snd r) = s_system st /\ s_files (snd r) = s_files st /\
  (forall x, In x (s_actions (snd r)) ->
   In x (s_actions st) \/ exists c md, x = Act_show_messages c md).
Proof.
  intros H r. unfold r, main. cbv zeta.
  set (md := match a_md a with Some b => b | None => cfg_true cfg "PRETTIFY_MARKDOWN" end).
  assert (Hshow : exists extra,
    (match a_show_chat a with
     | Some c => if str_truthy (Some c) then log_action (Act_show_messages c md) else cret tt
     | None => cret tt
     end) st = (COk tt, mk_sys (s_echo st) (s_runs st) (s_system st) (s_files st)
                               (s_actions st ++ extra)) /\
    forall x, In x extra -> exists c md, x = Act_show_messages c md).
  { destruct (a_show_chat a) as [c |]; [destruct (str_truthy (Some c)) |].
    - exists [Act_show_messages c md]. split; [reflexivity |].
      intros x [<- | []]. eauto.
    - exists []. rewrite app_nil_r. split; [destruct st; reflexivity | intros x []].
    - exists []. rewrite app_nil_r. split; [destruct st; reflexivity | intros x []]. }
  destruct Hshow as [extra [Hst Hx]].
  assert (Hfin : forall msg,
    let r := (CErr (A := unit) (UsageError msg), mk_sys (s_echo st) (s_runs st)
                (s_system st) (s_files st) (s_actions st ++ extra)) in
    (exists msg0, fst r = CErr (UsageError msg0)) /\
    s_echo (snd r) = s_echo st /\ s_runs (snd r) = s_runs st /\
    s_system (snd r) = s_system st /\ s_files (snd r) = s_files st /\
    (forall x, In x (s_actions (snd r)) ->
     In x (s_actions st) \/ exists c md, x = Act_show_messages c md)).
  { intros msg r0. split; [eexists; reflexivity |]. repeat (split; [reflexivity |]).
    intros x Hin. apply in_app_or in Hin as [Hin | Hin]; [left; exact Hin | right; auto]. }
  destruct H as [H | [H | H]].
  - rewrite H. unfold cbind. rewrite Hst. apply Hfin.
  - destruct (Nat.ltb _ _); rewrite ?H; unfold cbind; rewrite Hst; apply Hfin.
  - destruct (Nat.ltb _ _); [unfold cbind; rewrite Hst; apply Hfin |].
    destruct (str_truthy (a_chat a) && str_truthy (a_repl a));
      rewrite ?H; unfold cbind; rewrite Hst; apply Hfin.
Qed.

(** X11. [main] reads piped stdin up to the first line that contains
    [__sgpt__eof__]: that line and everything after it are left out of the
    prompt, and the lines before it are kept as they are. *)
Theorem read_stdin_stops_at_marker (before : list string) (marker_line : string)
    (after : list string) :
  forallb (fun l => negb (py_contains "__sgpt__eof__" l)) before = true ->
  py_contains "__sgpt__eof__" marker_line = true ->
  read_stdin (before ++ marker_line :: after) = String.concat "" before.
Proof.
  intros Hb Hm. induction before as [| l ls IH]; cbn [app read_stdin].
  - rewrite Hm. reflexivity.
  - cbn [forallb] in Hb. apply andb_prop in Hb as [Hl Hls].
    apply negb_true_iff in Hl. rewrite Hl, IH by exact Hls.
    destruct ls; [apply string_app_nil_r | reflexivity].
Qed.

(** X12. The shell-interaction loop runs at most one command: it ends
    having run nothing, or having run, once, the generated command or one
    of the texts the user produced with [M]odify. *)
Theorem shell_loop_runs_at_most_one platform_system environ system_effect handle describe
    default answers edits full_completion st :
  let r := shell_loop platform_system environ system_effect handle describe default
             answers edits full_completion st in
  s_runs (snd r) = s_runs st /\ s_echo (snd r) = s_echo st /\
  (s_system (snd r) = s_system st \/
   exists c, In c (full_completion :: edits) /\
     s_system (snd r) = (s_system st ++ [full_command platform_system environ c])%list).
Proof.
  cbv zeta. revert edits full_completion st.
  induction answers as [| ans rest IH]; intros edits full st; cbn [shell_loop].
  - cbn. auto.
  - destruct (click_choice _) as [option |].
    + destruct (String.eqb option "e" || String.eqb option "y").
      { unfold run_command, os_system.
        destruct (has_nul (full_command platform_system environ full)); cbn; [auto |].
        split; [reflexivity | split; [reflexivity |]]. right. exists full.
        split; [left; reflexivity | reflexivity]. }
      destruct (String.eqb option "m").
      { destruct edits as [| e es]; [cbn; auto |].
        destruct (IH es e st) as (H1 & H2 & [H3 | (c & Hc & H3)]);
          repeat (split; [assumption |]); [left; assumption |].
        right. exists c. split; [| exact H3].
        destruct Hc as [<- | Hc]; [right; left; reflexivity | right; right; exact Hc]. }
      destruct (String.eqb option "d"); [| cbn; auto].
      unfold run_handler, cbind at 1, log_action at 1, clift.
      cbn [fst snd s_runs s_echo s_system].
      destruct (handle (describe full)) as [s | e]; [| cbn; auto].
      unfold cbind. cbn [fst snd].
      destruct (IH edits full (mk_sys (s_echo st) (s_runs st) (s_system st) (s_files st)
                  (s_actions st ++ [Act_handle (describe full)])))
        as (H1 & H2 & H3).
      cbn [s_runs s_echo s_system] in *. auto.
    + unfold cbind at 1, log_action at 1.
      destruct (IH edits full (mk_sys (s_echo st) (s_runs st) (s_system st) (s_files st)
                  (s_actions st ++ [Act_invalid_choice
                                      (if String.eqb ans EmptyString then default else ans)])))
        as (H1 & H2 & H3).
      cbn [s_runs s_echo s_system] in *. auto.
Qed.

(** X13. With [--shell] and shell interaction on, and without [--chat],
    [--repl], [--role], [--editor] or [--show-chat], when the handler
    returns a command and the user answers the first prompt with an empty
    line, [main] runs the generated command if [DEFAULT_EXECUTE_SHELL_CMD]
    is ["true"] and otherwise ends without running anything.  Running it
    raises [ValueError] instead when the command line holds a NUL
    character. *)
Theorem main_default_answer platform_system environ system_effect tmp_path
    stdin_isatty stdin_lines cfg check_get system_role_get get_openai_schemas handle
    SHELL CODE DESCRIBE_SHELL rest tty_edits a full st :
  a_shell a = true -> a_describe_shell a = false -> a_code a = false ->
  a_chat a = None -> a_repl a = None -> a_editor a = false -> a_show_chat a = None ->
  a_role a = None ->
  match a_interaction a with Some b => b | None => cfg_true cfg "SHELL_INTERACTION" end
    = true ->
  (forall hc, hc_handler hc = H_default -> handle hc = COk full) ->
  let r := main platform_system environ system_effect tmp_path stdin_isatty stdin_lines
             cfg check_get system_role_get get_openai_schemas handle SHELL CODE
             DESCRIBE_SHELL ("" :: rest) tty_edits a st in
  fst r = (if cfg_true cfg "DEFAULT_EXECUTE_SHELL_CMD"
              && has_nul (full_command platform_system environ full)
           then CErr (CliValueError "embedded null byte") else COk tt) /\
  s_system (snd r)
  = (s_system st ++ (if cfg_true cfg "DEFAULT_EXECUTE_SHELL_CMD"
                        && negb (has_nul (full_command platform_system environ full))
                     then [full_command platform_system environ full] else []))%list.
Proof.
  intros Hs Hd Hc Hch Hr He Hsc Hro Hi Hh r. unfold r, main. cbv zeta.
  rewrite Hs, Hd, Hc, Hch, Hr, He, Hsc, Hro, Hi.
  unfold run_handler, cbind, log_action, clift. cbn -[shell_loop].
  rewrite Hh by reflexivity. cbn -[full_command].
  destruct (cfg_true cfg "DEFAULT_EXECUTE_SHELL_CMD"); cbn -[full_command].
  - unfold run_command, os_system. cbn -[full_command has_nul].
    destruct (has_nul (full_command platform_system environ full)); cbn -[full_command];
      [split; [reflexivity | rewrite app_nil_r; reflexivity] | split; reflexivity].
  - split; [reflexivity | rewrite app_nil_r; reflexivity].
Qed.

(* ------------------------------------------------------------------ *)
(** ** More properties of the handler engine *)

(** X14. On a first call whose [REQUEST_TIMEOUT] parses as an integer and,
    with the OpenAI client, whose client constructor succeeds,
    [get_provider_completion] reads [API_BASE_URL], [REQUEST_TIMEOUT] and
    [OPENAI_API_KEY] in that order. With litellm the keyword
    arguments sent with every request are the timeout and the base URL
    ([None] for ["default"]), without the API key; with the OpenAI client
    the client gets the timeout, the API key and the base URL, and the
    per-request keyword arguments are empty. *)
Theorem provider_kwargs_first_call cfg use_litellm py_int openai_init_error w timeout :
  w_completion w = None ->
  py_int (cfg "REQUEST_TIMEOUT") = Some timeout ->
  (use_litellm = false -> openai_init_error
     [("timeout", PInt timeout); ("api_key", PStr (cfg "OPENAI_API_KEY"));
      ("base_url", if String.eqb (cfg "API_BASE_URL") "default" then PNone
                   else PStr (cfg "API_BASE_URL"))] = None) ->
  let base_url := if String.eqb (cfg "API_BASE_URL") "default" then PNone
                  else PStr (cfg "API_BASE_URL") in
  let r := get_provider_completion cfg use_litellm py_int openai_init_error w in
  w_cfg_reads (snd r)
    = (w_cfg_reads w ++ ["API_BASE_URL"; "REQUEST_TIMEOUT"; "OPENAI_API_KEY"])%list /\
  fst r = Ok (if use_litellm
              then (Cap_litellm, [("timeout", PInt timeout); ("base_url", base_url)])
              else (Cap_openai [("timeout", PInt timeout);
                                ("api_key", PStr (cfg "OPENAI_API_KEY"));
                                ("base_url", base_url)], [])).
Proof.
  intros Hc Ht Ho base_url r. unfold r, get_provider_completion, cfg_get, read_cfg,
    bind, get. rewrite Hc. cbn -[String.eqb]. rewrite Ht. cbn -[String.eqb].
  destruct use_litellm.
  - unfold set_completion, with_world, ret. cbn -[String.eqb]. rewrite <- !app_assoc.
    split; reflexivity.
  - rewrite Ho by reflexivity. unfold set_completion, with_world, ret. cbn -[String.eqb].
    rewrite <- !app_assoc. split; reflexivity.
Qed.

(** X15. When the configuration cannot be turned into a provider (the
    timeout is not an integer, or the OpenAI client constructor raises),
    [get_provider_completion] raises that error and memoizes nothing, so
    the next call reads the configuration again. *)
Theorem provider_error_not_memoized cfg use_litellm py_int openai_init_error w :
  w_completion w = None ->
  let r := get_provider_completion cfg use_litellm py_int openai_init_error w in
  (py_int (cfg "REQUEST_TIMEOUT") = None ->
   fst r = Err (ValueError (cfg "REQUEST_TIMEOUT")) /\ w_completion (snd r) = None) /\
  (forall timeout e,
   py_int (cfg "REQUEST_TIMEOUT") = Some timeout -> use_litellm = false ->
   openai_init_error
     [("timeout", PInt timeout); ("api_key", PStr (cfg "OPENAI_API_KEY"));
      ("base_url", if String.eqb (cfg "API_BASE_URL") "default" then PNone
                   else PStr (cfg "API_BASE_URL"))] = Some e ->
   fst r = Err e /\ w_completion (snd r) = None).
Proof.
  intros Hc r. unfold r, get_provider_completion, cfg_get, read_cfg, bind, get.
  rewrite Hc. cbn -[String.eqb]. split.
  - intros Ht. rewrite Ht. unfold raise. cbn. split; [reflexivity | exact Hc].
  - intros timeout e Ht Hl Ho. rewrite Ht, Hl. cbn -[String.eqb]. rewrite Ho.
    unfold raise. cbn. split; [reflexivity | exact Hc].
Qed.

(** X16. When the model calls a function that is not in the registry,
    [handle_function_call] raises [FunctionNotFound] with its name after
    recording the assistant's tool-call message and yielding the call
    trace; no tool result is recorded and no function runs. *)
Theorem unknown_function_raises cfg json_loads get_function i n args d w :
  json_loads args = Some d -> get_function n = None ->
  handle_function_call cfg json_loads get_function i n args w =
  (Err (FunctionNotFound n),
   mk_world (w_completion w) (w_completion_kwargs w) (w_cfg_reads w)
     (w_messages w ++ [AssistantToolCall i n args])
     (w_out w ++ [nl; function_call_line n d])
     (w_fn_log w) (w_requests w) (w_closed w) (w_cache_calls w) (w_store w)).
Proof.
  intros Hj Hf; destruct w as [comp ckw reads ms out fl reqs cl cc st].
  unfold handle_function_call, bind, get, ret, raise, yield,
    append_message, with_world, set_messages, set_out; cbn -[function_call_line nl].
  rewrite last_last, match_snoc. cbn -[function_call_line nl].
  rewrite Hj, Hf. cbn -[function_call_line nl]. rewrite <- app_assoc. reflexivity.
Qed.



(* ------------------------------------------------------------------ *)
(** ** Witnesses for the command-line and engine properties *)

Lemma run_command_posix_words_witness :
  String.eqb "Linux" "Windows" = false /\
  env_get CliDemo.env_posix "SHELL" "/bin/sh" = "/bin/bash" /\
  exists line,
    run_command "Linux" CliDemo.env_posix CliDemo.no_effect "echo 'a b' > $OUT" CliDemo.st0
    = (COk tt, mk_sys [] [] [line] [] []) /\
    sh_words line = Some ["/bin/bash"; "-c"; "echo 'a b' > $OUT"].
Proof.
  split; [reflexivity |]. split; [reflexivity |].
  exact (run_command_posix_words "Linux" CliDemo.env_posix CliDemo.no_effect
           "echo 'a b' > $OUT" "/bin/bash" CliDemo.st0 eq_refl eq_refl
           ltac:(discriminate) eq_refl).
Defined.

Lemma run_command_windows_witness :
  env_get CliDemo.env_win "PSModulePath" "" = "C:\a;C:\b;C:\c" /\
  run_command "Windows" CliDemo.env_win CliDemo.no_effect "dir" CliDemo.st0
  = (COk tt, mk_sys [] [] ["powershell.exe -Command " ++ dq ++ "dir" ++ dq] [] []).
Proof.
  split; [reflexivity |].
  exact (run_command_windows "Windows" CliDemo.env_win CliDemo.no_effect "dir"
           "C:\a;C:\b;C:\c" CliDemo.st0 eq_refl eq_refl).
Defined.

Lemma replicate_runs_until_failure_witness :
  py_strip " me@host " = "me@host" /\
  let r := replicate_to_host "Linux" CliDemo.no_scp "/home/me/.config/shell_gpt" true
             " me@host " CliDemo.st0 in
  s_runs (snd r) = [["ssh"; "me@host"; "sh"; "-lc"; REMOTE_BOOTSTRAP_COMMAND];
                    ["scp"; "-r"; "/home/me/.config/shell_gpt"; "me@host:~/.config/"]] /\
  fst r = CErr (UsageError "Required command not found: scp").
Proof.
  split; [reflexivity |].
  exact (replicate_runs_until_failure "Linux" CliDemo.no_scp "/home/me/.config/shell_gpt"
           " me@host " CliDemo.st0 eq_refl ltac:(discriminate) eq_refl eq_refl).
Defined.

Lemma replicate_rejects_invalid_witness :
  py_strip " -oProxyCommand=x " = "-oProxyCommand=x" /\
  exists msg,
    replicate_to_host "Linux" (fun _ => Run_ok) "/home/me/.config/shell_gpt" true
      " -oProxyCommand=x " CliDemo.st0 = (CErr (UsageError msg), CliDemo.st0).
Proof.
  split; [reflexivity |].
  apply (replicate_rejects_invalid "Linux" (fun _ => Run_ok) "/home/me/.config/shell_gpt"
           true " -oProxyCommand=x " CliDemo.st0).
  right; right; left; reflexivity.
Defined.

Lemma install_shell_integration_appends_witness :
  py_contains "zsh" (env_get CliDemo.env_zsh "SHELL" "") = true /\
  let r := install_shell_integration CliDemo.env_zsh "/home/me" "ZSH-SNIPPET" "BASH-SNIPPET"
             true (mk_sys [] [] [] [("/home/me/.zshrc", "export A=1")] []) in
  fst r = CErr TyperExit /\
  fs_lookup "/home/me/.zshrc" (s_files (snd r)) = Some ("export A=1" ++ "ZSH-SNIPPET") /\
  (forall p, p <> "/home/me/.zshrc" ->
     fs_lookup p (s_files (snd r)) = fs_lookup p [("/home/me/.zshrc", "export A=1")]) /\
  length (s_echo (snd r)) = 0 + 2.
Proof.
  split; [reflexivity |].
  exact (install_shell_integration_appends CliDemo.env_zsh "/home/me" "ZSH-SNIPPET"
           "BASH-SNIPPET" (mk_sys [] [] [] [("/home/me/.zshrc", "export A=1")] [])
           (or_introl eq_refl)).
Defined.

Lemma install_shell_integration_twice_witness :
  py_contains "zsh" (env_get CliDemo.env_zsh "SHELL" "") = true /\
  fs_lookup "/home/me/.zshrc"
    (s_files (snd (install_shell_integration CliDemo.env_zsh "/home/me" "Z" "B" true
       (snd (install_shell_integration CliDemo.env_zsh "/home/me" "Z" "B" true
               CliDemo.st0)))))
  = Some ("" ++ "Z" ++ "Z").
Proof.
  split; [reflexivity |].
  exact (install_shell_integration_twice CliDemo.env_zsh "/home/me" "Z" "B" CliDemo.st0
           (or_introl eq_refl)).
Defined.

Lemma install_shell_integration_noop_witness :
  py_contains "zsh" (env_get (fun _ => Some "/bin/fish") "SHELL" "") = false /\
  py_contains "bash" (env_get (fun _ => Some "/bin/fish") "SHELL" "") = false /\
  install_shell_integration (fun _ => Some "/bin/fish") "/home/me" "Z" "B" true CliDemo.st0
  = (CErr (UsageError "ShellGPT integrations only available for ZSH and Bash."),
     CliDemo.st0).
Proof.
  split; [reflexivity |]. split; [reflexivity |].
  exact (proj2 (install_shell_integration_noop (fun _ => Some "/bin/fish") "/home/me"
                  "Z" "B" CliDemo.st0) eq_refl eq_refl).
Defined.

Lemma get_edited_prompt_result_witness :
  fs_lookup "/tmp/p.txt"
    (CliDemo.editor_hello ("vim /tmp/p.txt") (fs_write "/tmp/p.txt" "" [])) = Some "hello" /\
  let r := get_edited_prompt CliDemo.env_posix CliDemo.editor_hello "/tmp/p.txt"
             CliDemo.st0 in
  fst r = COk "hello" /\ fs_lookup "/tmp/p.txt" (s_files (snd r)) = None /\
  ("/etc/x" <> "/tmp/p.txt" ->
   fs_lookup "/etc/x" (s_files (snd r))
   = fs_lookup "/etc/x" (CliDemo.editor_hello ("vim /tmp/p.txt")
                            (fs_write "/tmp/p.txt" "" []))).
Proof.
  split; [reflexivity |].
  destruct (get_edited_prompt_result CliDemo.env_posix CliDemo.editor_hello "/tmp/p.txt"
              CliDemo.st0) as [_ H].
  cbv zeta in H. vm_compute in H |- *.
  destruct H as (H1 & H2 & H3). split; [exact H3 |]. split; [exact H1 |].
  intros Hne. exact (H2 _ Hne).
Defined.

Lemma main_handler_call_options_witness :
  let r := main "Linux" CliDemo.env_posix CliDemo.no_effect "/tmp/p.txt" true []
             CliDemo.cfg_exec CliDemo.check_get0 CliDemo.role_get0 [] CliDemo.handle_ls
             "S" "C" "D" ["a"] [] CliDemo.args_shell CliDemo.st0 in
  In (Act_handle CliDemo.hc_shell) (s_actions (snd r)) /\
  (In (Act_handle CliDemo.hc_shell) (s_actions CliDemo.st0) \/
   (hc_model CliDemo.hc_shell = Some "gpt" /\ hc_temperature CliDemo.hc_shell = 0%Z /\
    hc_top_p CliDemo.hc_shell = 1%Z /\ hc_caching CliDemo.hc_shell = true /\
    hc_markdown CliDemo.hc_shell = false /\
    (hc_functions CliDemo.hc_shell = None \/
     (hc_functions CliDemo.hc_shell = Some [] /\ ([] : list schema) <> [] /\
      false = true)))).
Proof.
  cbv zeta. assert (Hin : In (Act_handle CliDemo.hc_shell)
    (s_actions (snd (main "Linux" CliDemo.env_posix CliDemo.no_effect "/tmp/p.txt" true []
       CliDemo.cfg_exec CliDemo.check_get0 CliDemo.role_get0 [] CliDemo.handle_ls
       "S" "C" "D" ["a"] [] CliDemo.args_shell CliDemo.st0)))).
  { vm_compute. left. reflexivity. }
  split; [exact Hin |].
  exact (main_handler_call_options "Linux" CliDemo.env_posix CliDemo.no_effect "/tmp/p.txt"
           true [] CliDemo.cfg_exec CliDemo.check_get0 CliDemo.role_get0 []
           CliDemo.handle_ls "S" "C" "D" ["a"] [] CliDemo.args_shell CliDemo.st0
           CliDemo.hc_shell Hin).
Defined.

Lemma main_rejects_conflicting_options_witness :
  Nat.ltb 1 (Nat.b2n (a_shell CliDemo.args_conflict)
             + Nat.b2n (a_describe_shell CliDemo.args_conflict)
             + Nat.b2n (a_code CliDemo.args_conflict)) = true /\
  let r := main "Linux" CliDemo.env_posix CliDemo.no_effect "/tmp/p.txt" true []
             CliDemo.cfg_exec CliDemo.check_get0 CliDemo.role_get0 [] CliDemo.handle_ls
             "S" "C" "D" ["e"] [] CliDemo.args_conflict CliDemo.st0 in
  (exists msg, fst r = CErr (UsageError msg)) /\
  s_echo (snd r) = [] /\ s_runs (snd r) = [] /\ s_system (snd r) = [] /\
  s_files (snd r) = [] /\
  (forall x, In x (s_actions (snd r)) ->
   In x [] \/ exists c md, x = Act_show_messages c md).
Proof.
  split; [reflexivity |].
  exact (main_rejects_conflicting_options "Linux" CliDemo.env_posix CliDemo.no_effect
           "/tmp/p.txt" true [] CliDemo.cfg_exec CliDemo.check_get0 CliDemo.role_get0 []
           CliDemo.handle_ls "S" "C" "D" ["e"] [] CliDemo.args_conflict CliDemo.st0
           (or_introl eq_refl)).
Defined.

Lemma read_stdin_stops_at_marker_witness :
  read_stdin (["hello" ++ nl] ++ ("__sgpt__eof__" ++ nl) :: ["input" ++ nl])
  = String.concat "" ["hello" ++ nl].
Proof.
  exact (read_stdin_stops_at_marker ["hello" ++ nl] ("__sgpt__eof__" ++ nl)
           ["input" ++ nl] eq_refl eq_refl).
Defined.

Lemma main_default_answer_witness :
  let cfg := fun k => if String.eqb k "SHELL_INTERACTION" then Some "true"
                      else CliDemo.cfg_exec k in
  let r := main "Linux" CliDemo.env_posix CliDemo.no_effect "/tmp/p.txt" true []
             cfg CliDemo.check_get0 CliDemo.role_get0 [] CliDemo.handle_ls
             "S" "C" "D" ("" :: []) [] CliDemo.args_shell CliDemo.st0 in
  fst r = COk tt /\
  s_system (snd r)
  = ([] ++ (if cfg_true cfg "DEFAULT_EXECUTE_SHELL_CMD"
            then [full_command "Linux" CliDemo.env_posix "ls -la"] else []))%list.
Proof.
  intros cfg.
  exact (main_default_answer "Linux" CliDemo.env_posix CliDemo.no_effect "/tmp/p.txt"
           true [] cfg CliDemo.check_get0 CliDemo.role_get0 []
           CliDemo.handle_ls "S" "C" "D" [] [] CliDemo.args_shell "ls -la" CliDemo.st0
           eq_refl eq_refl eq_refl eq_refl eq_refl eq_refl eq_refl eq_refl eq_refl
           (fun _ _ => eq_refl)).
Defined.

Lemma provider_kwargs_first_call_witness :
  Demo.py_int0 (Demo.cfg0 "REQUEST_TIMEOUT") = Some 60%Z /\
  let r := get_provider_completion Demo.cfg0 true Demo.py_int0 Demo.openai0 Demo.w_fresh in
  w_cfg_reads (snd r) = ["API_BASE_URL"; "REQUEST_TIMEOUT"; "OPENAI_API_KEY"] /\
  fst r = Ok (Cap_litellm, [("timeout", PInt 60); ("base_url", PNone)]).
Proof.
  split; [reflexivity |].
  exact (provider_kwargs_first_call Demo.cfg0 true Demo.py_int0 Demo.openai0 Demo.w_fresh
           60%Z eq_refl eq_refl (fun H => match H in (_ = b) return
             (if b then True else Demo.openai0 _ = None) with eq_refl => I end)).
Defined.

Lemma provider_error_not_memoized_witness :
  let r := get_provider_completion Demo.cfg0 false (fun _ => None) Demo.openai0
             Demo.w_fresh in
  fst r = Err (ValueError "60") /\ w_completion (snd r) = None.
Proof.
  exact (proj1 (provider_error_not_memoized Demo.cfg0 false (fun _ => None) Demo.openai0
                  Demo.w_fresh eq_refl) eq_refl).
Defined.

Lemma unknown_function_raises_witness :
  Demo.json0 "{}" = Some [] /\ Demo.getf0 "g" = None /\
  handle_function_call Demo.cfg0 Demo.json0 Demo.getf0 "c1" "g" "{}" Demo.w_memo =
  (Err (FunctionNotFound "g"),
   mk_world (Some Demo.cap0) [] [] [Msg "user" "hi"; AssistantToolCall "c1" "g" "{}"]
     [nl; function_call_line "g" []] [] [] [] [] []).
Proof.
  split; [reflexivity |]. split; [reflexivity |].
  exact (unknown_function_raises Demo.cfg0 Demo.json0 Demo.getf0 "c1" "g" "{}" []
           Demo.w_memo eq_refl eq_refl).
Defined.

Lemma plain_response_streams_content_witness :
  fst (Demo.gpc0 Demo.w_fresh) = Ok (Demo.cap0, []) /\
  store_lookup (request_fingerprint Demo.digest0 "gpt" 1%Z 1%Z
                  (w_messages Demo.w_fresh) None) (w_store Demo.w_fresh) = None /\
  no_tool_finish Demo.chunks2 = true /\
  let r := Demo.gc0 "user-role" [Demo.seg2] true "gpt" 1%Z 1%Z None Demo.w_fresh in
  fst r = Ok [] /\ w_out (snd r) = ([] ++ ["Done"])%list /\
  w_messages (snd r) = [Msg "user" "hi"] /\
  w_requests (snd r)
    = ([] ++ [mk_call Demo.cap0 "gpt" 1%Z 1%Z [Msg "user" "hi"] true
               (build_request_kwargs [] (resolve_functions "S" "C" "D" "user-role" None))])%list
  /\ w_closed (snd r) = [].
Proof.
  split; [reflexivity |]; split; [reflexivity |]; split; [reflexivity |].
  exact (plain_response_streams_content Demo.cfg0 false Demo.py_int0 Demo.openai0 Demo.json0
           Demo.getf0 "S" "C" "D" Demo.digest0 "user-role" true "gpt" 1%Z 1%Z None
           Demo.chunks2 [] Demo.w_fresh Demo.cap0 [] eq_refl (or_intror eq_refl) eq_refl).
Defined.
